(** * web_to_pdf_converter.py: fetch pages as PDF files, merge them by ctime

    A shallow embedding of [src/web_to_pdf_converter.py].  The script talks to
    three external collaborators: a headless browser (Playwright), a PDF
    library (PyPDF2's PdfMerger) and the host filesystem.  Their answers are
    not computed by the script, so they are supplied by an environment
    record [env]; everything the script itself decides (file names, which
    exceptions are caught, the order of the merge, when the merge stage is
    called) is modelled as executable code in a small monad that threads the
    directory contents, collects a trace of observable actions and
    propagates Python exceptions.

    What is taken for granted about the collaborators: [page.pdf] either
    writes a PDF the merger can read or raises and writes nothing;
    [merger.append] either adds all pages of a file or raises and adds none,
    and the merger keeps reading from every file it has appended;
    [merger.write] fails exactly when one of those files is the output file,
    which [open(output_path, "wb")] has just emptied; nothing else changes
    the directory while the script runs.  A directory entry is a file or a
    directory that [os.stat] reaches (no dangling symbolic link), standard
    output accepts every line, and signals that are not of class [Exception]
    (KeyboardInterrupt, SystemExit) are not modelled. *)

From Stdlib Require Import List String Ascii ZArith Lia Bool Arith.
From Stdlib Require Import Permutation Sorted.
From Stdlib Require Import DecimalString DecimalNat.
Import ListNotations.

Open Scope string_scope.
Open Scope list_scope.

Infix "+++" := String.append (right associativity, at level 60).

(** ** Strings produced by f-strings *)

(** The character ["\n"]. *)
Definition nl : string := String (ascii_of_nat 10) EmptyString.

(** [f"{n}"] for a non-negative integer. *)
Definition decimal (n : nat) : string := NilEmpty.string_of_uint (Nat.to_uint n).

(** [s.endswith(suf)] *)
Fixpoint endswith (suf s : string) : bool :=
  (s =? suf)%string ||
  match s with
  | EmptyString => false
  | String _ r => endswith suf r
  end.

(** ** Paths *)

(** A [pathlib.Path] to a file, as the pair of its directory and its final
    component; the script only ever builds such a path as
    [directory / filename] with [filename] one path component.  The
    directory is given by its own [str()], as pathlib normalises it: ["."]
    for the current directory, no trailing ["/"] unless it is a root. *)
Record Path := mkPath { Path_parent : string; Path_name : string }.

(** [directory / filename] *)
Definition joinpath (directory filename : string) : Path :=
  mkPath directory filename.

(** [str(path)]: the directory, a separator, the name; pathlib writes no
    ["./"] in front of a name in the current directory and no second
    separator after a root. *)
Definition str (p : Path) : string :=
  if (Path_parent p =? ".")%string then Path_name p
  else if endswith "/" (Path_parent p) then Path_parent p +++ Path_name p
  else Path_parent p +++ "/" +++ Path_name p.

(** ** Exceptions and results *)

(** A raised Python exception of class [Exception] (or a subclass), with the
    text that [f"{e}"] shows.  These are the exceptions an
    [except Exception] clause catches. *)
Inductive exn := Exception (msg : string).

Definition exn_msg (e : exn) : string := let 'Exception m := e in m.

Inductive result (A : Type) :=
| Ok (a : A)
| Raise (e : exn).
Arguments Ok {A} a.
Arguments Raise {A} e.

(** ** The download directory *)

Definition page := string.

(** What PdfMerger.append finds when it opens an entry: a PDF with its pages,
    or something it cannot read (a corrupt file, a directory named x.pdf). *)
Inductive file_content :=
| Pdf (pages : list page)
| Unreadable (why : string).

(** A file of zero bytes, as [open(path, "wb")] leaves it: the merger cannot
    read it. *)
Definition empty_file : file_content := Unreadable "Cannot read an empty file".

(** A directory entry: its name, the value [os.path.getctime] returns for it,
    and what is stored there. *)
Record entry := mkEntry
  { ent_name : string; ent_ctime : Z; ent_content : file_content }.

(** The state of the directory the script works in: [None] when it does not
    exist, else its entries in the order a directory scan yields them. *)
Definition fs := option (list entry).

Definition listing (s : fs) : list entry :=
  match s with Some l => l | None => [] end.

(** Creating or overwriting the entry called [ent_name e]. *)
Fixpoint put (e : entry) (l : list entry) : list entry :=
  match l with
  | [] => [e]
  | x :: r => if (ent_name x =? ent_name e)%string then e :: r else x :: put e r
  end.

Fixpoint lookup (nm : string) (l : list entry) : option entry :=
  match l with
  | [] => None
  | x :: r => if (ent_name x =? nm)%string then Some x else lookup nm r
  end.

(** ** The PdfMerger *)

(** A [PdfMerger]: the pages appended so far, and the paths of the files it
    took them from and still reads when it writes. *)
Record PdfMerger := mkMerger
  { merger_pages : list page; merger_inputs : list string }.

(** What [merger.write] raises when a file it reads has been emptied. *)
Definition PdfStreamError : exn := Exception "Stream has ended unexpectedly".

(** ** Observable actions *)

Inductive event :=
| Stdout (line : string)                        (* print(line) *)
| Call_download (url : string) (filepath : Path)  (* download_page_as_pdf(url, filepath) *)
| Call_merge (directory output_filename : string) (* merge_pdfs_by_creation_time(...) *)
| Page_pdf (path : string)                      (* page.pdf(path=..., format='A4') *)
| Append (path : string)                        (* merger.append(path) *)
| Open_wb (path : Path).                        (* open(path, "wb") *)

(** ** The environment: what the external collaborators answer *)

(** One browser session, for one url and one destination. *)
Inductive fetch_outcome :=
| GotoError (e : exn)          (* launch, new_page or page.goto raises *)
| PdfError (e : exn)           (* page.pdf raises, nothing is written *)
| CloseError (pages : list page) (stamp : Z) (e : exn)
                               (* the file is written, browser.close raises *)
| Rendered (pages : list page) (stamp : Z).
                               (* the file is written with ctime [stamp] *)

Record env := mkEnv
  { mkdir_error : option exn;    (* Path.mkdir(exist_ok=True) raises *)
    browser : string -> Path -> fetch_outcome;
    open_error : option exn;     (* open(output_path, "wb") raises *)
    merged_ctime : Z;            (* ctime of the merged file once written *)
    resolve : Path -> string;    (* str(path.resolve()) of a file *)
    resolve_dir : string -> string }. (* str(directory.resolve()) *)

(** ** The monad: directory state, trace, exceptions *)

Definition M (A : Type) : Type := fs -> list event * result A * fs.

Definition ret {A} (a : A) : M A := fun s => ([], Ok a, s).

Definition raise {A} (e : exn) : M A := fun s => ([], Raise e, s).

Definition bind {A B} (m : M A) (k : A -> M B) : M B :=
  fun s =>
    match m s with
    | (t1, Ok a, s1) => let '(t2, r, s2) := k a s1 in (t1 ++ t2, r, s2)
    | (t1, Raise e, s1) => (t1, Raise e, s1)
    end.

(** [try: m  except Exception as e: h e] *)
Definition try_except {A} (m : M A) (h : exn -> M A) : M A :=
  fun s =>
    match m s with
    | (t1, Ok a, s1) => (t1, Ok a, s1)
    | (t1, Raise e, s1) => let '(t2, r, s2) := h e s1 in (t1 ++ t2, r, s2)
    end.

Definition emit (ev : event) : M unit := fun s => ([ev], Ok tt, s).

Definition print (line : string) : M unit := emit (Stdout line).

Declare Scope monad_scope.
Delimit Scope monad_scope with monad.
Notation "x <- m ;; k" := (bind m (fun x => k))
  (at level 100, m at next level, right associativity) : monad_scope.
Notation "m ;; k" := (bind m (fun _ => k))
  (at level 100, right associativity) : monad_scope.
Notation "'try' m 'except' e => h" := (try_except m (fun e => h))
  (at level 100, m at next level, e name, h at next level) : monad_scope.
Open Scope monad_scope.

Definition trace_of {A} (x : list event * result A * fs) : list event := fst (fst x).
Definition result_of {A} (x : list event * result A * fs) : result A := snd (fst x).
Definition state_of {A} (x : list event * result A * fs) : fs := snd x.

(** ** Filesystem operations *)

(** A file is created or overwritten in the directory. *)
Definition write_file (nm : string) (stamp : Z) (c : file_content) : M unit :=
  fun s =>
    match s with
    | Some l => ([], Ok tt, Some (put (mkEntry nm stamp c) l))
    | None => ([], Raise (Exception "No such file or directory"), None)
    end.

(** [directory.glob("*" + suf)]: the entries of the directory itself whose
    name matches; pathlib's [*] matches any run of characters, the empty one
    and a leading dot included, and the match is case-sensitive as on a POSIX
    host.  A Path the scan yields is represented by the entry it names. *)
Definition glob_star (suf : string) : M (list entry) :=
  fun s => ([], Ok (filter (fun e => endswith suf (ent_name e)) (listing s)), s).

(** [sorted(files, key=os.path.getctime)]: ascending, and stable as Python's
    sort is (entries with equal keys keep the order of the scan). *)
Fixpoint insert_by_ctime (e : entry) (l : list entry) : list entry :=
  match l with
  | [] => [e]
  | x :: r =>
      if (ent_ctime e <=? ent_ctime x)%Z then e :: l
      else x :: insert_by_ctime e r
  end.

Definition sorted_by_ctime (l : list entry) : list entry :=
  fold_right insert_by_ctime [] l.

(** ** The script *)

Section Script.

(** The collaborators' answers during one run. *)
Variable E : env.

(** The configuration constants of the script (module-level globals). *)
Variable URLS_TO_DOWNLOAD : list string.
Variable DOWNLOAD_DIRECTORY : string.
Variable MERGED_FILENAME : string.

(** [DOWNLOAD_DIRECTORY.mkdir(exist_ok=True)] *)
Definition mkdir_exist_ok : M unit :=
  fun s =>
    match mkdir_error E with
    | Some e => ([], Raise e, s)
    | None => ([], Ok tt, Some (listing s))
    end.

(** [open(output_path, "wb")]: raises, or creates the file or empties the
    one that is there. *)
Definition open_wb (output_path : Path) : M unit :=
  emit (Open_wb output_path) ;;
  match open_error E with
  | Some e => raise e
  | None => write_file (Path_name output_path) (merged_ctime E) empty_file
  end.

(** [page.pdf(path=str(filepath), format='A4')] writing [pages]. *)
Definition page_pdf (filepath : Path) (pages : list page) (stamp : Z) : M unit :=
  emit (Page_pdf (str filepath)) ;;
  write_file (Path_name filepath) stamp (Pdf pages).

Definition download_page_as_pdf (url : string) (filepath : Path) : M Path :=
  print ("-> Starting download for: " +++ url) ;;
  match browser E url filepath with
  | GotoError e => raise e
  | PdfError e =>
      print "   Pausing for 1 second..." ;;
      emit (Page_pdf (str filepath)) ;;
      raise e
  | CloseError pages stamp e =>
      print "   Pausing for 1 second..." ;;
      page_pdf filepath pages stamp ;;
      print ("   Successfully saved to: " +++ Path_name filepath) ;;
      raise e
  | Rendered pages stamp =>
      print "   Pausing for 1 second..." ;;
      page_pdf filepath pages stamp ;;
      print ("   Successfully saved to: " +++ Path_name filepath) ;;
      ret filepath
  end.

(** [merger.append(str(pdf))] *)
Definition merger_append (directory : string) (merger : PdfMerger) (pdf : entry)
  : M PdfMerger :=
  let path := str (joinpath directory (ent_name pdf)) in
  emit (Append path) ;;
  match ent_content pdf with
  | Pdf pages =>
      ret (mkMerger (merger_pages merger ++ pages) (merger_inputs merger ++ [path]))
  | Unreadable why => raise (Exception why)
  end.

(** [merger.write(f)], [f] the file just opened at [output_path]: the merger
    reads its pages back from the files it appended, which fails when one of
    them is the file at [output_path]. *)
Definition merger_write (merger : PdfMerger) (output_path : Path) : M unit :=
  if existsb (String.eqb (str output_path)) (merger_inputs merger)
  then raise PdfStreamError
  else write_file (Path_name output_path) (merged_ctime E)
         (Pdf (merger_pages merger)).

(** [for pdf in pdf_files: ...] of merge_pdfs_by_creation_time. *)
Fixpoint append_loop (directory : string) (pdf_files : list entry)
  (merger : PdfMerger) : M PdfMerger :=
  match pdf_files with
  | [] => ret merger
  | pdf :: rest =>
      print ("   Adding: " +++ ent_name pdf) ;;
      merger' <- (try merger_append directory merger pdf
                  except e =>
                    (print ("   [ERROR] Could not merge " +++ ent_name pdf
                            +++ ": " +++ exn_msg e) ;;
                     ret merger)) ;;
      append_loop directory rest merger'
  end.

Definition merge_pdfs_by_creation_time (directory output_filename : string)
  : M unit :=
  found <- glob_star ".pdf" ;;
  let pdf_files := sorted_by_ctime found in
  match pdf_files with
  | [] => print (nl +++ "No PDFs found to merge.")
  | _ :: _ =>
      let merger := mkMerger [] [] in
      print (nl +++ "Merging " +++ decimal (List.length pdf_files) +++ " files into "
             +++ output_filename +++ "...") ;;
      merger <- append_loop directory pdf_files merger ;;
      let output_path := joinpath directory output_filename in
      open_wb output_path ;;
      merger_write merger output_path ;;
      print (nl +++ "✅ Merging completed. Final file saved at: "
             +++ resolve E output_path)
  end.

(** [for i, url in enumerate(URLS_TO_DOWNLOAD): ...] of main, started at
    index [i] with the list [downloaded_paths] built so far. *)
Fixpoint download_loop (i : nat) (urls : list string)
  (downloaded_paths : list Path) : M (list Path) :=
  match urls with
  | [] => ret downloaded_paths
  | url :: rest =>
      let filename := "page_" +++ decimal (i + 1) +++ ".pdf" in
      let filepath := joinpath DOWNLOAD_DIRECTORY filename in
      downloaded_paths' <-
        (try (emit (Call_download url filepath) ;;
              path <- download_page_as_pdf url filepath ;;
              ret (downloaded_paths ++ [path]))
         except e =>
           (print ("[CRITICAL ERROR] Failed to download " +++ url +++ ": "
                   +++ exn_msg e) ;;
            ret downloaded_paths)) ;;
      download_loop (S i) rest downloaded_paths'
  end.

Definition main : M unit :=
  print "--- WEB-TO-PDF DOWNLOADER AND MERGER ---" ;;
  mkdir_exist_ok ;;
  print ("Download directory prepared: " +++ resolve_dir E DOWNLOAD_DIRECTORY) ;;
  downloaded_paths <- download_loop 0 URLS_TO_DOWNLOAD [] ;;
  (if (1 <? List.length downloaded_paths)%nat then
     emit (Call_merge DOWNLOAD_DIRECTORY MERGED_FILENAME) ;;
     merge_pdfs_by_creation_time DOWNLOAD_DIRECTORY MERGED_FILENAME
   else if (List.length downloaded_paths =? 1)%nat then
     match downloaded_paths with
     | p :: _ =>
         print (nl +++ "Only one PDF was downloaded. No merging required: "
                +++ Path_name p)
     | [] => raise (Exception "list index out of range")
     end
   else
     print (nl +++ "No files were successfully downloaded.")) ;;
  print "--- PROCESS COMPLETE ---".

(** [if __name__ == "__main__": asyncio.run(main())]: the exit status of the
    interpreter, 0 when main returns and 1 when an exception leaves it. *)
Definition exit_status (s : fs) : Z :=
  match result_of (main s) with
  | Ok _ => 0
  | Raise _ => 1
  end.

End Script.

(** The constants as the source file sets them. *)
Module Source.
Definition URLS_TO_DOWNLOAD : list string :=
    [ "https://www.google.com/";
      "https://en.wikipedia.org/wiki/Python_(programming_language)";
      "https://example.com/" ].
Definition DOWNLOAD_DIRECTORY : string := "downloaded_pdfs".
Definition MERGED_FILENAME : string := "combined_report.pdf".
Definition main (E : env) : M unit :=
    main E URLS_TO_DOWNLOAD DOWNLOAD_DIRECTORY MERGED_FILENAME.
Definition exit_status (E : env) : fs -> Z :=
    exit_status E URLS_TO_DOWNLOAD DOWNLOAD_DIRECTORY MERGED_FILENAME.
End Source.

(** The exception a failed fetch raises. *)
Definition failure_of (o : fetch_outcome) : option exn :=
  match o with
  | GotoError e | PdfError e | CloseError _ _ e => Some e
  | Rendered _ _ => None
  end.

(** The fetch wrote its file before it failed. *)
Definition wrote_file (o : fetch_outcome) : bool :=
  match o with
  | CloseError _ _ _ | Rendered _ _ => true
  | _ => false
  end.

(** ** Sample environments and directories *)

(** Every fetch renders, nothing fails. *)
Definition env_ok : env :=
  mkEnv None (fun url _ => Rendered [url] 0) None 100 str (fun d => d).

Definition rerun_dir : fs :=
  Some [ mkEntry "combined_report.pdf" 30 (Pdf ["old report"]);
         mkEntry "page_2.pdf" 20 (Pdf ["two"]);
         mkEntry "notes.txt" 5 (Pdf ["not scanned"]);
         mkEntry "page_1.pdf" 10 (Pdf ["one"]);
         mkEntry "broken.pdf" 15 (Unreadable "EOF marker not found") ].

Definition no_pdf_dir : fs :=
  Some [ mkEntry "notes.txt" 5 (Unreadable "not a PDF");
         mkEntry "page_1.pdf.bak" 7 (Pdf ["one"]) ].

Definition env_mkdir_denied : env :=
  mkEnv (Some (Exception "[Errno 13] Permission denied: 'downloaded_pdfs'"))
    (fun url _ => Rendered [url] 0) None 100 str (fun d => d).

Definition env_open_denied : env :=
  mkEnv None (fun url _ => Rendered [url] 0)
    (Some (Exception "[Errno 13] Permission denied")) 100 str (fun d => d).

(** The second target cannot be reached, the others render. *)
Definition env_second_fails : env :=
  mkEnv None
    (fun url p =>
       if (Path_name p =? "page_2.pdf")%string
       then GotoError (Exception "net::ERR_NAME_NOT_RESOLVED")
       else Rendered [url] 50)
    None 100 str (fun d => d).

(** Only the first target renders. *)
Definition env_only_first : env :=
  mkEnv None
    (fun url p =>
       if (Path_name p =? "page_1.pdf")%string
       then Rendered [url] 50
       else GotoError (Exception "net::ERR_NAME_NOT_RESOLVED"))
    None 100 str (fun d => d).

(** A directory that still holds [page_2.pdf] from an earlier run. *)
Definition stale_dir : fs := Some [ mkEntry "page_2.pdf" 1 (Pdf ["stale"]) ].

(** * Properties *)

(** ** Reading a trace *)

Definition downloads_of (tr : list event) : list (string * Path) :=
  flat_map (fun ev => match ev with Call_download u p => [(u, p)] | _ => [] end) tr.

Definition merges_of (tr : list event) : list (string * string) :=
  flat_map (fun ev => match ev with Call_merge d f => [(d, f)] | _ => [] end) tr.

Definition appends_of (tr : list event) : list string :=
  flat_map (fun ev => match ev with Append p => [p] | _ => [] end) tr.

Definition opens_of (tr : list event) : list Path :=
  flat_map (fun ev => match ev with Open_wb p => [p] | _ => [] end) tr.

(** [enumerate(l, start=i)] *)
Fixpoint enumerate_from (i : nat) (l : list string) : list (nat * string) :=
  match l with
  | [] => []
  | x :: r => (i, x) :: enumerate_from (S i) r
  end.

(** The pages an entry contributes to a merge: none when it cannot be read. *)
Definition pages_of (pdf : entry) : list page :=
  match ent_content pdf with
  | Pdf pages => pages
  | Unreadable _ => []
  end.

Definition is_pdf_name (e : entry) : bool := endswith ".pdf" (ent_name e).

Definition ctime_le (a b : entry) : Prop := (ent_ctime a <= ent_ctime b)%Z.

(** ** Sorting by ctime *)

Lemma insert_by_ctime_perm e l : Permutation (e :: l) (insert_by_ctime e l).
Proof.
  induction l as [|x r IH]; simpl.
  - apply Permutation_refl.
  - destruct (ent_ctime e <=? ent_ctime x)%Z.
    + apply Permutation_refl.
    + eapply perm_trans; [apply perm_swap|].
      now apply perm_skip.
Qed.

Lemma sorted_by_ctime_perm l : Permutation l (sorted_by_ctime l).
Proof.
  induction l as [|x r IH]; simpl.
  - constructor.
  - eapply perm_trans; [|apply insert_by_ctime_perm].
    now apply perm_skip.
Qed.

Lemma insert_by_ctime_sorted e l :
  StronglySorted ctime_le l -> StronglySorted ctime_le (insert_by_ctime e l).
Proof.
  induction 1 as [|x r Hs IH Hall]; simpl.
  - repeat constructor.
  - destruct (ent_ctime e <=? ent_ctime x)%Z eqn:Hc.
    + apply Z.leb_le in Hc.
      constructor; [now constructor|].
      constructor; [exact Hc|].
      eapply Forall_impl; [|exact Hall].
      unfold ctime_le; intros; lia.
    + apply Z.leb_gt in Hc.
      constructor; [exact IH|].
      eapply Permutation_Forall; [apply insert_by_ctime_perm|].
      constructor; [unfold ctime_le; lia|exact Hall].
Qed.

Lemma sorted_by_ctime_sorted l : StronglySorted ctime_le (sorted_by_ctime l).
Proof.
  induction l; simpl; [constructor|now apply insert_by_ctime_sorted].
Qed.

(** The sort is stable: among the entries with a given ctime the order of
    the scan is kept. *)
Lemma insert_by_ctime_stable t e l :
  StronglySorted ctime_le l ->
  filter (fun x => (ent_ctime x =? t)%Z) (insert_by_ctime e l) =
  filter (fun x => (ent_ctime x =? t)%Z) (e :: l).
Proof.
  induction 1 as [|x r Hs IH Hall]; [reflexivity|].
  simpl insert_by_ctime.
  destruct (ent_ctime e <=? ent_ctime x)%Z eqn:Hc; [reflexivity|].
  apply Z.leb_gt in Hc.
  simpl. rewrite IH. simpl.
  destruct (ent_ctime x =? t)%Z eqn:Hx; destruct (ent_ctime e =? t)%Z eqn:He;
    try reflexivity.
  apply Z.eqb_eq in Hx, He. lia.
Qed.

Lemma sorted_by_ctime_stable t l :
  filter (fun x => (ent_ctime x =? t)%Z) (sorted_by_ctime l) =
  filter (fun x => (ent_ctime x =? t)%Z) l.
Proof.
  induction l as [|x r IH]; [reflexivity|].
  simpl sorted_by_ctime.
  rewrite insert_by_ctime_stable by apply sorted_by_ctime_sorted.
  simpl. now rewrite IH.
Qed.

Lemma sorted_by_ctime_nil l : sorted_by_ctime l = [] -> l = [].
Proof.
  intros H. apply Permutation_nil.
  rewrite <- H. apply Permutation_sym, sorted_by_ctime_perm.
Qed.

Lemma sorted_by_ctime_In e l : In e (sorted_by_ctime l) <-> In e l.
Proof.
  split; apply Permutation_in;
    [apply Permutation_sym|]; apply sorted_by_ctime_perm.
Qed.

(** ** Strings and file names *)

Lemma length_append (a b : string) :
  String.length (a +++ b) = String.length a + String.length b.
Proof. induction a; simpl; [reflexivity|now rewrite IHa]. Qed.

Lemma append_inj_r (a b c : string) : a +++ c = b +++ c -> a = b.
Proof.
  revert b; induction a as [|x a IH]; intros [|y b] H; simpl in H.
  - reflexivity.
  - apply (f_equal String.length) in H. simpl in H.
    rewrite length_append in H. lia.
  - apply (f_equal String.length) in H. simpl in H.
    rewrite length_append in H. lia.
  - injection H as -> H. f_equal. now apply IH.
Qed.

Lemma endswith_append (a suf : string) : endswith suf (a +++ suf) = true.
Proof.
  induction a as [|x a IH]; simpl.
  - destruct suf; simpl; rewrite ?Ascii.eqb_refl, ?String.eqb_refl; reflexivity.
  - rewrite IH. apply orb_true_r.
Qed.

Lemma decimal_inj (a b : nat) : decimal a = decimal b -> a = b.
Proof.
  unfold decimal. intros H.
  apply (f_equal NilEmpty.uint_of_string) in H.
  rewrite !NilEmpty.usu in H.
  injection H as H. now apply Unsigned.to_uint_inj.
Qed.

(** ** Directory contents *)

Lemma lookup_put_same e l : lookup (ent_name e) (put e l) = Some e.
Proof.
  induction l as [|x r IH]; simpl.
  - now rewrite String.eqb_refl.
  - destruct (ent_name x =? ent_name e)%string eqn:Hx; simpl.
    + now rewrite String.eqb_refl.
    + now rewrite Hx.
Qed.

Lemma lookup_put_other nm e l :
  nm <> ent_name e -> lookup nm (put e l) = lookup nm l.
Proof.
  intros Hne. induction l as [|x r IH]; simpl.
  - destruct (ent_name e =? nm)%string eqn:H; [|reflexivity].
    apply String.eqb_eq in H. congruence.
  - destruct (ent_name x =? ent_name e)%string eqn:Hx; simpl.
    + apply String.eqb_eq in Hx. rewrite Hx.
      destruct (ent_name e =? nm)%string eqn:H; [|reflexivity].
      apply String.eqb_eq in H. congruence.
    + now rewrite IH.
Qed.

Lemma lookup_In nm l e : lookup nm l = Some e -> In e l /\ ent_name e = nm.
Proof.
  induction l as [|x r IH]; simpl; [discriminate|].
  destruct (ent_name x =? nm)%string eqn:Hx.
  - intros [= ->]. apply String.eqb_eq in Hx. auto.
  - intros H. destruct (IH H). auto.
Qed.

Lemma In_put_new e l : In e (put e l).
Proof.
  induction l as [|x r IH]; simpl; [auto|].
  destruct (ent_name x =? ent_name e)%string; simpl; auto.
Qed.

Lemma In_put_other x e l :
  In x l -> ent_name x <> ent_name e -> In x (put e l).
Proof.
  intros Hin Hne. induction l as [|y r IH]; simpl in *; [contradiction|].
  destruct (ent_name y =? ent_name e)%string eqn:Hy; simpl.
  - destruct Hin as [-> | Hin]; [|auto].
    apply String.eqb_eq in Hy. contradiction.
  - destruct Hin; auto.
Qed.

Lemma In_put_inv x e l : In x (put e l) -> x = e \/ In x l.
Proof.
  induction l as [|y r IH]; simpl.
  - intros [<- | []]. auto.
  - destruct (ent_name y =? ent_name e)%string; simpl.
    + intros [<- | H]; auto.
    + intros [<- | H]; auto. destruct (IH H); auto.
Qed.

(** ** Events of a trace *)

Lemma appends_of_app a b : appends_of (a ++ b) = appends_of a ++ appends_of b.
Proof. apply flat_map_app. Qed.

Lemma downloads_of_app a b :
  downloads_of (a ++ b) = downloads_of a ++ downloads_of b.
Proof. apply flat_map_app. Qed.

Lemma merges_of_app a b : merges_of (a ++ b) = merges_of a ++ merges_of b.
Proof. apply flat_map_app. Qed.

Lemma opens_of_app a b : opens_of (a ++ b) = opens_of a ++ opens_of b.
Proof. apply flat_map_app. Qed.

Lemma In_appends_of p tr : In p (appends_of tr) <-> In (Append p) tr.
Proof.
  unfold appends_of. rewrite in_flat_map. split.
  - intros [[] [Hin H]]; simpl in H; try contradiction.
    destruct H as [-> | []]. exact Hin.
  - intros H. exists (Append p). simpl. auto.
Qed.

Lemma In_merges_of d f tr : In (d, f) (merges_of tr) <-> In (Call_merge d f) tr.
Proof.
  unfold merges_of. rewrite in_flat_map. split.
  - intros [[] [Hin H]]; simpl in H; try contradiction.
    destruct H as [[= -> ->] | []]. exact Hin.
  - intros H. exists (Call_merge d f). simpl. auto.
Qed.


(** ** The merge stage, step by step *)

(** The files the merge stage works on: the scan, filtered and sorted. *)
Definition pdf_inputs (s : fs) : list entry :=
  sorted_by_ctime (filter is_pdf_name (listing s)).

(** The merger has read [pdf], and [pdf] has the name of the output file. *)
Definition reads_back (output_filename : string) (pdf : entry) : bool :=
  (ent_name pdf =? output_filename)%string &&
  match ent_content pdf with
  | Pdf _ => true
  | Unreadable _ => false
  end.

(** One of the files the merger appends is the output file itself. *)
Definition output_is_an_input (output_filename : string) (s : fs) : bool :=
  existsb (reads_back output_filename) (pdf_inputs s).

(** No readable file of the directory has the name of the output file. *)
Definition output_not_an_input (output_filename : string) (s : fs) : Prop :=
  forall pdf, In pdf (listing s) -> ent_name pdf = output_filename ->
    exists why, ent_content pdf = Unreadable why.

Lemma append_inj_l (d a b : string) : d +++ a = d +++ b -> a = b.
Proof.
  induction d as [|c d IH]; simpl; intros H; [exact H|].
  injection H as H. now apply IH.
Qed.

Lemma str_joinpath_inj d a b : str (joinpath d a) = str (joinpath d b) -> a = b.
Proof.
  unfold str, joinpath. simpl.
  destruct (d =? ".")%string; [auto|].
  destruct (endswith "/" d); intros H; apply append_inj_l in H; [exact H|].
  now injection H.
Qed.

Lemma put_put_same e1 e2 l :
  ent_name e1 = ent_name e2 -> put e2 (put e1 l) = put e2 l.
Proof.
  intros Hn. induction l as [|x r IH]; simpl.
  - now rewrite Hn, String.eqb_refl.
  - rewrite Hn.
    destruct (ent_name x =? ent_name e2)%string eqn:Hx; simpl.
    + now rewrite Hn, String.eqb_refl.
    + now rewrite Hx, IH.
Qed.

Lemma output_not_an_input_false output_filename s :
  output_not_an_input output_filename s ->
  output_is_an_input output_filename s = false.
Proof.
  intros H. unfold output_is_an_input.
  destruct (existsb _ _) eqn:Hex; [|reflexivity].
  apply existsb_exists in Hex as (pdf & Hin & Hrb).
  unfold reads_back in Hrb. apply andb_true_iff in Hrb as [Hn Hc].
  apply String.eqb_eq in Hn.
  apply sorted_by_ctime_In, filter_In in Hin as [Hin _].
  destruct (H pdf Hin Hn) as (why & Hw). rewrite Hw in Hc. discriminate.
Qed.

Lemma output_is_an_input_true output_filename s pdf pages :
  In pdf (pdf_inputs s) -> ent_name pdf = output_filename ->
  ent_content pdf = Pdf pages ->
  output_is_an_input output_filename s = true.
Proof.
  intros Hin Hn Hc. unfold output_is_an_input.
  apply existsb_exists. exists pdf. split; [exact Hin|].
  unfold reads_back. now rewrite Hn, String.eqb_refl, Hc.
Qed.

Section MergeStage.

Variable E : env.
Variables directory output_filename : string.

(** What one round of the append loop shows. *)
Definition append_events (pdf : entry) : list event :=
  Stdout ("   Adding: " +++ ent_name pdf) ::
  Append (str (joinpath directory (ent_name pdf))) ::
  match ent_content pdf with
  | Pdf _ => []
  | Unreadable why =>
      [Stdout ("   [ERROR] Could not merge " +++ ent_name pdf +++ ": " +++ why)]
  end.

(** The path the merger keeps open for [pdf], when it could append it. *)
Definition input_of (pdf : entry) : list string :=
  match ent_content pdf with
  | Pdf _ => [str (joinpath directory (ent_name pdf))]
  | Unreadable _ => []
  end.

Definition merging_line (n : nat) : event :=
  Stdout (nl +++ "Merging " +++ decimal n +++ " files into "
          +++ output_filename +++ "...").

Definition completed_line : event :=
  Stdout (nl +++ "✅ Merging completed. Final file saved at: "
          +++ resolve E (joinpath directory output_filename)).

(** The entry the merge stage writes. *)
Definition merged_entry (s : fs) : entry :=
  mkEntry output_filename (merged_ctime E)
    (Pdf (flat_map pages_of (pdf_inputs s))).

(** The entry [open(output_path, "wb")] leaves. *)
Definition truncated_entry : entry :=
  mkEntry output_filename (merged_ctime E) empty_file.

Lemma append_loop_spec pdf_files merger s :
  append_loop directory pdf_files merger s =
  (flat_map append_events pdf_files,
   Ok (mkMerger (merger_pages merger ++ flat_map pages_of pdf_files)
         (merger_inputs merger ++ flat_map input_of pdf_files)), s).
Proof.
  revert merger; induction pdf_files as [|pdf rest IH]; intros merger.
  - simpl. unfold ret. rewrite !app_nil_r. now destruct merger.
  - simpl append_loop. unfold bind at 1. unfold print, emit.
    unfold bind at 1. unfold try_except, merger_append, bind, emit.
    simpl flat_map. unfold append_events at 1, pages_of at 1, input_of at 1.
    destruct (ent_content pdf) as [pages|why]; simpl; rewrite IH; simpl.
    + now rewrite <- !app_assoc.
    + reflexivity.
Qed.

Lemma inputs_hold_output pdf_files :
  existsb (String.eqb (str (joinpath directory output_filename)))
    (flat_map input_of pdf_files) =
  existsb (reads_back output_filename) pdf_files.
Proof.
  induction pdf_files as [|pdf rest IH]; [reflexivity|].
  simpl flat_map. rewrite existsb_app, IH. simpl existsb. f_equal.
  unfold input_of, reads_back.
  destruct (ent_content pdf) as [pages|why]; simpl.
  - rewrite orb_false_r, andb_true_r.
    destruct (String.eqb_spec (ent_name pdf) output_filename) as [->|Hne].
    + apply String.eqb_refl.
    + apply String.eqb_neq. intros H. apply str_joinpath_inj in H. congruence.
  - now rewrite andb_false_r.
Qed.

Lemma pdf_inputs_listing s : pdf_inputs s <> [] -> s = Some (listing s).
Proof.
  destruct s as [l|]; [reflexivity|].
  unfold pdf_inputs; simpl. congruence.
Qed.

Lemma merge_empty s :
  pdf_inputs s = [] ->
  merge_pdfs_by_creation_time E directory output_filename s =
  ([Stdout (nl +++ "No PDFs found to merge.")], Ok tt, s).
Proof.
  unfold pdf_inputs, is_pdf_name, merge_pdfs_by_creation_time, glob_star.
  intros H. unfold bind at 1. rewrite H. reflexivity.
Qed.

(** The stage from the "Merging" line on, with the write step still to run. *)
Lemma merge_nonempty s :
  pdf_inputs s <> [] ->
  merge_pdfs_by_creation_time E directory output_filename s =
  let output_path := joinpath directory output_filename in
  let '(t, r, s') :=
    (open_wb E output_path ;;
     merger_write E
       (mkMerger (flat_map pages_of (pdf_inputs s))
          (flat_map input_of (pdf_inputs s))) output_path ;;
     emit completed_line) s in
  (merging_line (List.length (pdf_inputs s))
     :: flat_map append_events (pdf_inputs s) ++ t, r, s').
Proof.
  unfold pdf_inputs, is_pdf_name, merge_pdfs_by_creation_time, glob_star.
  unfold bind at 1. simpl listing.
  destruct (sorted_by_ctime _) as [|pdf rest] eqn:Hs; [congruence|intros _].
  unfold bind at 1, print at 1, emit at 1. unfold bind at 1.
  rewrite append_loop_spec. cbn [merger_pages merger_inputs app].
  cbv zeta. unfold completed_line, print.
  destruct ((open_wb E (joinpath directory output_filename) ;; _) s)
    as [[t r] s'].
  reflexivity.
Qed.

Lemma merge_written s :
  pdf_inputs s <> [] -> open_error E = None ->
  output_is_an_input output_filename s = false ->
  merge_pdfs_by_creation_time E directory output_filename s =
  (merging_line (List.length (pdf_inputs s))
     :: flat_map append_events (pdf_inputs s)
     ++ [Open_wb (joinpath directory output_filename); completed_line],
   Ok tt, Some (put (merged_entry s) (listing s))).
Proof.
  intros Hne Hopen Hself.
  rewrite (merge_nonempty s Hne). cbv zeta.
  rewrite (pdf_inputs_listing s Hne) at 1.
  unfold open_wb, merger_write, bind, emit, write_file, raise, ret.
  rewrite Hopen. cbn [merger_inputs merger_pages].
  rewrite inputs_hold_output. fold (output_is_an_input output_filename s).
  rewrite Hself. simpl.
  unfold merged_entry.
  now rewrite (put_put_same (mkEntry output_filename (merged_ctime E) empty_file)).
Qed.

Lemma merge_open_fails s e :
  pdf_inputs s <> [] -> open_error E = Some e ->
  merge_pdfs_by_creation_time E directory output_filename s =
  (merging_line (List.length (pdf_inputs s))
     :: flat_map append_events (pdf_inputs s)
     ++ [Open_wb (joinpath directory output_filename)],
   Raise e, s).
Proof.
  intros Hne Hopen.
  rewrite (merge_nonempty s Hne). cbv zeta.
  unfold open_wb, bind, emit, raise. rewrite Hopen. reflexivity.
Qed.

Lemma merge_write_fails s :
  pdf_inputs s <> [] -> open_error E = None ->
  output_is_an_input output_filename s = true ->
  merge_pdfs_by_creation_time E directory output_filename s =
  (merging_line (List.length (pdf_inputs s))
     :: flat_map append_events (pdf_inputs s)
     ++ [Open_wb (joinpath directory output_filename)],
   Raise PdfStreamError, Some (put truncated_entry (listing s))).
Proof.
  intros Hne Hopen Hself.
  rewrite (merge_nonempty s Hne). cbv zeta.
  rewrite (pdf_inputs_listing s Hne) at 1.
  unfold open_wb, merger_write, bind, emit, write_file, raise, ret.
  rewrite Hopen. cbn [merger_inputs merger_pages].
  rewrite inputs_hold_output. fold (output_is_an_input output_filename s).
  rewrite Hself. reflexivity.
Qed.

Lemma appends_of_append_events pdf_files :
  appends_of (flat_map append_events pdf_files) =
  map (fun pdf => str (joinpath directory (ent_name pdf))) pdf_files.
Proof.
  induction pdf_files as [|pdf rest IH]; [reflexivity|].
  change (flat_map append_events (pdf :: rest))
    with (append_events pdf ++ flat_map append_events rest).
  rewrite appends_of_app, IH.
  unfold append_events. destruct (ent_content pdf); reflexivity.
Qed.


End MergeStage.

(** ** The trace of the merge stage *)

Section MergeTrace.

Variable E : env.
Variables directory output_filename : string.

Local Abbreviation run_merge :=
  (merge_pdfs_by_creation_time E directory output_filename).

Lemma merge_cases s :
  (pdf_inputs s = [] /\
   run_merge s = ([Stdout (nl +++ "No PDFs found to merge.")], Ok tt, s)) \/
  (pdf_inputs s <> [] /\ open_error E = None /\
   output_is_an_input output_filename s = false /\
   run_merge s =
   (merging_line output_filename (List.length (pdf_inputs s))
      :: flat_map (append_events directory) (pdf_inputs s)
      ++ [Open_wb (joinpath directory output_filename);
          completed_line E directory output_filename],
    Ok tt, Some (put (merged_entry E output_filename s) (listing s)))) \/
  (exists e s', pdf_inputs s <> [] /\
   (s' = s \/ s' = Some (put (truncated_entry E output_filename) (listing s))) /\
   run_merge s =
   (merging_line output_filename (List.length (pdf_inputs s))
      :: flat_map (append_events directory) (pdf_inputs s)
      ++ [Open_wb (joinpath directory output_filename)],
    Raise e, s')).
Proof.
  destruct (pdf_inputs s) as [|pdf rest] eqn:Hs.
  - left. split; [reflexivity|]. now apply merge_empty.
  - assert (Hne : pdf_inputs s <> []) by congruence. rewrite <- Hs.
    destruct (open_error E) as [e|] eqn:Hopen.
    + right. right. exists e, s.
      split; [exact Hne|]. split; [now left|]. now apply merge_open_fails.
    + destruct (output_is_an_input output_filename s) eqn:Hself.
      * right. right. exists PdfStreamError. eexists.
        split; [exact Hne|]. split; [right; reflexivity|].
        now apply merge_write_fails.
      * right. left. repeat split; auto using merge_written.
Qed.

Lemma merges_of_append_events pdf_files :
  merges_of (flat_map (append_events directory) pdf_files) = [].
Proof.
  induction pdf_files as [|pdf rest IH]; [reflexivity|].
  change (flat_map (append_events directory) (pdf :: rest))
    with (append_events directory pdf ++ flat_map (append_events directory) rest).
  rewrite merges_of_app, IH.
  unfold append_events. destruct (ent_content pdf); reflexivity.
Qed.

Lemma downloads_of_append_events pdf_files :
  downloads_of (flat_map (append_events directory) pdf_files) = [].
Proof.
  induction pdf_files as [|pdf rest IH]; [reflexivity|].
  change (flat_map (append_events directory) (pdf :: rest))
    with (append_events directory pdf ++ flat_map (append_events directory) rest).
  rewrite downloads_of_app, IH.
  unfold append_events. destruct (ent_content pdf); reflexivity.
Qed.

Lemma merges_of_merge s : merges_of (trace_of (run_merge s)) = [].
Proof.
  destruct (merge_cases s)
    as [(_ & ->) | [(_ & _ & _ & ->) | (e & s' & _ & _ & ->)]];
    unfold trace_of; simpl fst; [reflexivity| |];
    change (merges_of (merging_line output_filename ?n :: ?t)) with (merges_of t);
    now rewrite merges_of_app, merges_of_append_events.
Qed.

Lemma downloads_of_merge s : downloads_of (trace_of (run_merge s)) = [].
Proof.
  destruct (merge_cases s)
    as [(_ & ->) | [(_ & _ & _ & ->) | (e & s' & _ & _ & ->)]];
    unfold trace_of; simpl fst; [reflexivity| |];
    change (downloads_of (merging_line output_filename ?n :: ?t))
      with (downloads_of t);
    now rewrite downloads_of_app, downloads_of_append_events.
Qed.


Lemma merge_appends s :
  appends_of (trace_of (run_merge s)) =
  map (fun pdf => str (joinpath directory (ent_name pdf))) (pdf_inputs s).
Proof.
  destruct (merge_cases s)
    as [(H & ->) | [(_ & _ & _ & ->) | (e & s' & _ & _ & ->)]];
    unfold trace_of; simpl fst; [now rewrite H| |];
    change (appends_of (merging_line output_filename ?n :: ?t))
      with (appends_of t);
    rewrite appends_of_app, appends_of_append_events; simpl;
    now rewrite app_nil_r.
Qed.

Lemma merge_output_entry s :
  pdf_inputs s <> [] -> open_error E = None ->
  output_is_an_input output_filename s = false ->
  lookup output_filename (listing (state_of (run_merge s))) =
  Some (merged_entry E output_filename s).
Proof.
  intros Hne Hopen Hself. rewrite (merge_written _ _ _ _ Hne Hopen Hself).
  unfold state_of; simpl snd; simpl listing.
  apply (lookup_put_same (merged_entry E output_filename s)).
Qed.


End MergeTrace.

Lemma flat_map_In_split {A B} (f : A -> list B) x l :
  In x l -> exists before after, flat_map f l = before ++ f x ++ after.
Proof.
  intros Hin. apply in_split in Hin as (l1 & l2 & ->).
  exists (flat_map f l1), (flat_map f l2).
  now rewrite flat_map_app.
Qed.

Lemma pdf_inputs_nil s : pdf_inputs s = [] <-> filter is_pdf_name (listing s) = [].
Proof.
  unfold pdf_inputs. split; [apply sorted_by_ctime_nil|now intros ->].
Qed.

(** ** The merge stage: claims *)


(** Two files on a POSIX host: [a.pdf] was created first (at time 1) and
    [b.pdf] second (at time 2); [a.pdf] was changed afterwards, so the inode
    change time [os.path.getctime] returns is 30 for [a.pdf] and 20 for
    [b.pdf]. *)
Definition created_at (name : string) : Z :=
  if (name =? "a.pdf")%string then 1 else 2.

Definition touched_dir : fs :=
  Some [ mkEntry "a.pdf" 30 (Pdf ["a"]); mkEntry "b.pdf" 20 (Pdf ["b"]) ].

(** C2. The docstring promises a merge "ordered by their creation time"; the
    sort key is [os.path.getctime].  On the directory above the stage appends
    [b.pdf] before [a.pdf] and the merged file holds them in that order,
    although [a.pdf] was created first. *)
Lemma merge_order_is_getctime_order_not_creation_order :
  let out := merge_pdfs_by_creation_time env_ok "downloaded_pdfs"
               "combined_report.pdf" touched_dir in
  (created_at "a.pdf" < created_at "b.pdf")%Z /\
  appends_of (trace_of out) =
    [ "downloaded_pdfs/b.pdf"; "downloaded_pdfs/a.pdf" ] /\
  result_of out = Ok tt /\
  lookup "combined_report.pdf" (listing (state_of out)) =
    Some (mkEntry "combined_report.pdf" 100 (Pdf ["b"; "a"])).
Proof.
  intros out. split; [reflexivity|]. split; [reflexivity|].
  split; reflexivity.
Qed.



(** C6. When the scan of the directory matches no PDF file, the merge stage
    does nothing: it prints that there is nothing to merge, returns, and
    leaves the directory as it was (no output file is opened or written). *)
Theorem merge_no_pdf_is_noop
  (E : env) (directory output_filename : string) (s : fs) :
  filter is_pdf_name (listing s) = [] ->
  merge_pdfs_by_creation_time E directory output_filename s =
  ([Stdout (nl +++ "No PDFs found to merge.")], Ok tt, s).
Proof.
  intros H. apply merge_empty. now apply pdf_inputs_nil.
Qed.

Lemma merge_no_pdf_is_noop_witness :
  merge_pdfs_by_creation_time env_ok "downloaded_pdfs" "combined_report.pdf"
    no_pdf_dir =
  ([Stdout (nl +++ "No PDFs found to merge.")], Ok tt, no_pdf_dir).
Proof.
  apply (merge_no_pdf_is_noop env_ok "downloaded_pdfs" "combined_report.pdf"
           no_pdf_dir).
  reflexivity.
Defined.

(** C8. Merging into a directory that still holds the merged file of an
    earlier run: that file is one of the PDFs the stage reads; opening the
    output empties it, [merger.write] then raises, and the stage ends with
    the exception, leaving a file of zero bytes where the earlier merged
    file was.  The source it read is destroyed and the overwrite is not
    without error. *)
Lemma rerun_empties_the_previous_output :
  let out := merge_pdfs_by_creation_time env_ok "downloaded_pdfs"
               "combined_report.pdf" rerun_dir in
  lookup "combined_report.pdf" (listing rerun_dir) =
    Some (mkEntry "combined_report.pdf" 30 (Pdf ["old report"])) /\
  In (Append "downloaded_pdfs/combined_report.pdf") (trace_of out) /\
  result_of out = Raise PdfStreamError /\
  lookup "combined_report.pdf" (listing (state_of out)) =
    Some (mkEntry "combined_report.pdf" 100 empty_file).
Proof.
  intros out.
  split; [reflexivity|].
  split; [apply In_appends_of; vm_compute; auto 10|].
  split; reflexivity.
Qed.

(** C9. When the directory already holds a file whose name is the output
    file name and ends in [.pdf], the merge stage takes that file as one of
    its inputs: the scan matches it and [merger.append] is called on it. *)
Theorem merge_reads_previous_output
  (E : env) (directory output_filename : string) (s : fs) (old : entry) :
  In old (listing s) ->
  ent_name old = output_filename ->
  endswith ".pdf" output_filename = true ->
  let out := merge_pdfs_by_creation_time E directory output_filename s in
  In old (pdf_inputs s) /\
  In (Append (str (joinpath directory output_filename))) (trace_of out).
Proof.
  intros Hin Hname Hpdf out.
  assert (Hold : In old (pdf_inputs s)).
  { apply sorted_by_ctime_In, filter_In. split; [exact Hin|].
    unfold is_pdf_name. now rewrite Hname. }
  split; [exact Hold|].
  subst out. apply In_appends_of. rewrite merge_appends, <- Hname.
  apply (in_map (fun pdf => str (joinpath directory (ent_name pdf)))), Hold.
Qed.

Lemma merge_reads_previous_output_witness :
  let out := merge_pdfs_by_creation_time env_ok "downloaded_pdfs"
               "combined_report.pdf" rerun_dir in
  In (Append "downloaded_pdfs/combined_report.pdf") (trace_of out).
Proof.
  destruct (merge_reads_previous_output env_ok "downloaded_pdfs"
              "combined_report.pdf" rerun_dir
              (mkEntry "combined_report.pdf" 30 (Pdf ["old report"])))
    as (_ & Happ);
    [left; reflexivity|reflexivity|reflexivity|].
  intros out. exact Happ.
Defined.

(** ** The driver, step by step *)

Section Driver.

Variable E : env.
Variable URLS_TO_DOWNLOAD : list string.
Variable DOWNLOAD_DIRECTORY : string.
Variable MERGED_FILENAME : string.

(** The destination of the target at 0-based position [i]. *)
Definition page_path (i : nat) : Path :=
  joinpath DOWNLOAD_DIRECTORY ("page_" +++ decimal (i + 1) +++ ".pdf").

(** What the browser does for the target [(i, url)]. *)
Definition outcome (t : nat * string) : fetch_outcome :=
  browser E (snd t) (page_path (fst t)).

(** The fetch of a target succeeds when download_page_as_pdf returns. *)
Definition fetch_succeeds (t : nat * string) : bool :=
  match outcome t with
  | Rendered _ _ => true
  | _ => false
  end.

Definition critical_line (url : string) (e : exn) : event :=
  Stdout ("[CRITICAL ERROR] Failed to download " +++ url +++ ": " +++ exn_msg e).

(** What one round of the download loop shows. *)
Definition attempt_events (t : nat * string) : list event :=
  let url := snd t in
  let filepath := page_path (fst t) in
  Call_download url filepath ::
  Stdout ("-> Starting download for: " +++ url) ::
  match outcome t with
  | GotoError e => [critical_line url e]
  | PdfError e =>
      [Stdout "   Pausing for 1 second..."; Page_pdf (str filepath);
       critical_line url e]
  | CloseError _ _ e =>
      [Stdout "   Pausing for 1 second..."; Page_pdf (str filepath);
       Stdout ("   Successfully saved to: " +++ Path_name filepath);
       critical_line url e]
  | Rendered _ _ =>
      [Stdout "   Pausing for 1 second..."; Page_pdf (str filepath);
       Stdout ("   Successfully saved to: " +++ Path_name filepath)]
  end.

(** What one round of the download loop leaves in the directory. *)
Definition attempt_state (l : list entry) (t : nat * string) : list entry :=
  match outcome t with
  | CloseError pages stamp _ | Rendered pages stamp =>
      put (mkEntry (Path_name (page_path (fst t))) stamp (Pdf pages)) l
  | _ => l
  end.

Lemma download_loop_spec urls : forall i downloaded_paths l,
  download_loop E DOWNLOAD_DIRECTORY i urls downloaded_paths (Some l) =
  (flat_map attempt_events (enumerate_from i urls),
   Ok (downloaded_paths
       ++ map (fun t => page_path (fst t))
            (filter fetch_succeeds (enumerate_from i urls))),
   Some (fold_left attempt_state (enumerate_from i urls) l)).
Proof.
  induction urls as [|url rest IH]; intros i dp l.
  - simpl. unfold ret. now rewrite app_nil_r.
  - simpl download_loop. unfold bind at 1.
    unfold try_except, download_page_as_pdf, page_pdf, write_file.
    unfold bind, print, emit, raise, ret.
    simpl enumerate_from. simpl flat_map. simpl filter. simpl fold_left.
    unfold attempt_events at 1, attempt_state at 2, fetch_succeeds at 1.
    unfold outcome, page_path. simpl fst. simpl snd.
    destruct (browser E url _) as [e|e|pages stamp e|pages stamp];
      simpl; rewrite IH; simpl; try reflexivity.
    now rewrite <- app_assoc.
Qed.

(** The targets whose fetch succeeds, and the directory after the loop. *)
Definition targets : list (nat * string) := enumerate_from 0 URLS_TO_DOWNLOAD.

Definition successes : list (nat * string) := filter fetch_succeeds targets.

Definition after_downloads (s : fs) : fs :=
  Some (fold_left attempt_state targets (listing s)).

Definition banner : list event :=
  [ Stdout "--- WEB-TO-PDF DOWNLOADER AND MERGER ---";
    Stdout ("Download directory prepared: " +++ resolve_dir E DOWNLOAD_DIRECTORY) ].

Definition complete_line : event := Stdout "--- PROCESS COMPLETE ---".

Local Abbreviation run_main := (main E URLS_TO_DOWNLOAD DOWNLOAD_DIRECTORY MERGED_FILENAME).
Local Abbreviation run_merge :=
  (merge_pdfs_by_creation_time E DOWNLOAD_DIRECTORY MERGED_FILENAME).

Lemma main_mkdir_fails s e :
  mkdir_error E = Some e ->
  run_main s = ([Stdout "--- WEB-TO-PDF DOWNLOADER AND MERGER ---"], Raise e, s).
Proof.
  intros H. unfold main, bind, print, emit, mkdir_exist_ok. now rewrite H.
Qed.

Lemma main_from_loop s :
  mkdir_error E = None ->
  run_main s =
  let paths := map (fun t => page_path (fst t)) successes in
  let '(t2, r2, s2) :=
    (if (1 <? List.length paths)%nat then
       emit (Call_merge DOWNLOAD_DIRECTORY MERGED_FILENAME) ;; run_merge
     else if (List.length paths =? 1)%nat then
       match paths with
       | p :: _ =>
           print (nl +++ "Only one PDF was downloaded. No merging required: "
                  +++ Path_name p)
       | [] => raise (Exception "list index out of range")
       end
     else print (nl +++ "No files were successfully downloaded."))
      (after_downloads s) in
  match r2 with
  | Ok _ => (banner ++ flat_map attempt_events targets ++ t2 ++ [complete_line],
             Ok tt, s2)
  | Raise e => (banner ++ flat_map attempt_events targets ++ t2, Raise e, s2)
  end.
Proof.
  intros Hmk. unfold main.
  unfold bind at 1, print at 1, emit at 1.
  unfold bind at 1, mkdir_exist_ok. rewrite Hmk.
  unfold bind at 1, print at 1, emit at 1.
  unfold bind at 1. rewrite download_loop_spec.
  fold targets. fold successes. unfold after_downloads.
  simpl app at 1.
  set (decide := if (1 <? _)%nat then _ else _).
  unfold bind at 1.
  destruct (decide (Some (fold_left attempt_state targets (listing s))))
    as [[t2 [[]|e]] s2]; unfold print, emit, banner, complete_line; simpl;
    reflexivity.
Qed.

Lemma length_successes_paths :
  List.length (map (fun t => page_path (fst t)) successes) = List.length successes.
Proof. apply length_map. Qed.

Lemma main_merging s :
  mkdir_error E = None -> 2 <= List.length successes ->
  run_main s =
  let '(tm, rm, sm) := run_merge (after_downloads s) in
  match rm with
  | Ok _ =>
      (banner ++ flat_map attempt_events targets
       ++ (Call_merge DOWNLOAD_DIRECTORY MERGED_FILENAME :: tm) ++ [complete_line],
       Ok tt, sm)
  | Raise e =>
      (banner ++ flat_map attempt_events targets
       ++ Call_merge DOWNLOAD_DIRECTORY MERGED_FILENAME :: tm,
       Raise e, sm)
  end.
Proof.
  intros Hmk Hlen. rewrite main_from_loop by exact Hmk.
  cbv zeta. rewrite length_successes_paths.
  destruct (Nat.ltb_spec 1 (List.length successes)) as [_|]; [|lia].
  unfold bind, emit.
  destruct (run_merge (after_downloads s)) as [[tm rm] sm].
  reflexivity.
Qed.

Lemma main_single s t :
  mkdir_error E = None -> successes = [t] ->
  run_main s =
  (banner ++ flat_map attempt_events targets
   ++ [Stdout (nl +++ "Only one PDF was downloaded. No merging required: "
               +++ Path_name (page_path (fst t)))] ++ [complete_line],
   Ok tt, after_downloads s).
Proof.
  intros Hmk Hone. rewrite main_from_loop by exact Hmk.
  rewrite Hone. reflexivity.
Qed.

Lemma main_nothing s :
  mkdir_error E = None -> successes = [] ->
  run_main s =
  (banner ++ flat_map attempt_events targets
   ++ [Stdout (nl +++ "No files were successfully downloaded.")]
   ++ [complete_line],
   Ok tt, after_downloads s).
Proof.
  intros Hmk Hnone. rewrite main_from_loop by exact Hmk.
  rewrite Hnone. reflexivity.
Qed.

(** The download loop calls neither the merger nor [open]. *)
Lemma appends_of_attempts ts : appends_of (flat_map attempt_events ts) = [].
Proof.
  induction ts as [|t r IH]; [reflexivity|].
  change (flat_map attempt_events (t :: r))
    with (attempt_events t ++ flat_map attempt_events r).
  rewrite appends_of_app, IH.
  unfold attempt_events. destruct (outcome t); reflexivity.
Qed.

Lemma opens_of_attempts ts : opens_of (flat_map attempt_events ts) = [].
Proof.
  induction ts as [|t r IH]; [reflexivity|].
  change (flat_map attempt_events (t :: r))
    with (attempt_events t ++ flat_map attempt_events r).
  rewrite opens_of_app, IH.
  unfold attempt_events. destruct (outcome t); reflexivity.
Qed.

Lemma merges_of_attempts ts : merges_of (flat_map attempt_events ts) = [].
Proof.
  induction ts as [|t r IH]; [reflexivity|].
  change (flat_map attempt_events (t :: r))
    with (attempt_events t ++ flat_map attempt_events r).
  rewrite merges_of_app, IH.
  unfold attempt_events. destruct (outcome t); reflexivity.
Qed.

Lemma downloads_of_attempts ts :
  downloads_of (flat_map attempt_events ts) =
  map (fun t => (snd t, page_path (fst t))) ts.
Proof.
  induction ts as [|t r IH]; [reflexivity|].
  change (flat_map attempt_events (t :: r))
    with (attempt_events t ++ flat_map attempt_events r).
  rewrite downloads_of_app, IH.
  unfold attempt_events. destruct (outcome t); reflexivity.
Qed.

(** Names of the page files. *)
Lemma is_pdf_page_name i : endswith ".pdf" (Path_name (page_path i)) = true.
Proof. exact (endswith_append ("page_" +++ decimal (i + 1)) ".pdf"). Qed.

Lemma page_name_inj i j :
  Path_name (page_path i) = Path_name (page_path j) -> i = j.
Proof.
  unfold page_path, joinpath. simpl. intros H.
  injection H as H. apply append_inj_r, decimal_inj in H. lia.
Qed.

(** The directory after the download loop. *)
Lemma put_keeps_name nm x l :
  (exists e, In e l /\ ent_name e = nm) ->
  exists e, In e (put x l) /\ ent_name e = nm.
Proof.
  intros (e & Hin & Hnm).
  destruct (string_dec (ent_name e) (ent_name x)) as [Heq|Hne].
  - exists x. split; [apply In_put_new|congruence].
  - exists e. split; [now apply In_put_other|exact Hnm].
Qed.

Lemma attempts_keep_name nm ts : forall l,
  (exists e, In e l /\ ent_name e = nm) ->
  exists e, In e (fold_left attempt_state ts l) /\ ent_name e = nm.
Proof.
  induction ts as [|t r IH]; intros l H; [exact H|].
  simpl. apply IH. unfold attempt_state.
  destruct (outcome t); auto using put_keeps_name.
Qed.

Lemma success_file_present t ts : forall l,
  In t ts -> fetch_succeeds t = true ->
  exists e, In e (fold_left attempt_state ts l)
            /\ ent_name e = Path_name (page_path (fst t)).
Proof.
  induction ts as [|t' r IH]; intros l Hin Hok; [contradiction|].
  simpl. destruct Hin as [-> | Hin]; [|now apply IH].
  apply attempts_keep_name.
  unfold fetch_succeeds in Hok. unfold attempt_state.
  destruct (outcome t) as [| | |pages stamp]; try discriminate.
  eexists. split; [apply In_put_new|reflexivity].
Qed.

Lemma pdf_inputs_after_downloads s :
  successes <> [] -> pdf_inputs (after_downloads s) <> [].
Proof.
  intros Hne Hnil. apply pdf_inputs_nil in Hnil.
  destruct successes as [|t r] eqn:Hs; [congruence|].
  assert (Ht : In t successes) by (rewrite Hs; now left).
  apply filter_In in Ht as [Hin Hok].
  destruct (success_file_present t targets (listing s) Hin Hok) as (e & He & Hnm).
  assert (Hf : In e (filter is_pdf_name (listing (after_downloads s)))).
  { apply filter_In. split; [exact He|].
    unfold is_pdf_name. rewrite Hnm. apply is_pdf_page_name. }
  rewrite Hnil in Hf. exact Hf.
Qed.

Lemma lookup_untouched j urls : forall i l,
  j < i ->
  lookup (Path_name (page_path j))
    (fold_left attempt_state (enumerate_from i urls) l) =
  lookup (Path_name (page_path j)) l.
Proof.
  induction urls as [|url rest IH]; intros i l Hlt; [reflexivity|].
  simpl. rewrite IH by lia.
  unfold attempt_state.
  destruct (outcome (i, url)); try reflexivity;
    (apply lookup_put_other; simpl ent_name; simpl fst;
     intros H; apply page_name_inj in H; lia).
Qed.

Lemma lookup_after_loop urls : forall i l k url,
  nth_error urls k = Some url ->
  lookup (Path_name (page_path (i + k)))
    (fold_left attempt_state (enumerate_from i urls) l) =
  match outcome (i + k, url) with
  | CloseError pages stamp _ | Rendered pages stamp =>
      Some (mkEntry (Path_name (page_path (i + k))) stamp (Pdf pages))
  | _ => lookup (Path_name (page_path (i + k))) l
  end.
Proof.
  induction urls as [|x rest IH]; intros i l k url Hk.
  - destruct k; discriminate.
  - destruct k as [|k]; simpl in Hk.
    + injection Hk as ->. rewrite Nat.add_0_r. simpl fold_left.
      rewrite lookup_untouched by lia.
      unfold attempt_state. simpl fst.
      destruct (outcome (i, url)); try reflexivity;
        apply (lookup_put_same (mkEntry _ _ _)).
    + simpl fold_left. replace (i + S k) with (S i + k) by lia.
      rewrite (IH (S i) _ k url Hk).
      destruct (outcome (S i + k, url)); try reflexivity;
        unfold attempt_state;
        destruct (outcome (i, x)); try reflexivity;
        (apply lookup_put_other; simpl ent_name; simpl fst;
         intros H; apply page_name_inj in H; lia).
Qed.

Lemma In_enumerate_from urls : forall i k url,
  nth_error urls k = Some url -> In (i + k, url) (enumerate_from i urls).
Proof.
  induction urls as [|x rest IH]; intros i k url Hk.
  - destruct k; discriminate.
  - destruct k as [|k]; simpl in Hk.
    + injection Hk as ->. rewrite Nat.add_0_r. now left.
    + right. replace (i + S k) with (S i + k) by lia. now apply IH.
Qed.

Lemma In_enumerate_from_inv urls : forall i t,
  In t (enumerate_from i urls) ->
  exists k, fst t = i + k /\ nth_error urls k = Some (snd t).
Proof.
  induction urls as [|x rest IH]; intros i t Hin; [contradiction|].
  destruct Hin as [<- | Hin].
  - exists 0. split; [simpl; lia|reflexivity].
  - destruct (IH _ _ Hin) as (k & Hk & Hn).
    exists (S k). split; [lia|exact Hn].
Qed.


End Driver.


Lemma length_enumerate_from urls : forall i,
  List.length (enumerate_from i urls) = List.length urls.
Proof. induction urls; intros; simpl; auto. Qed.

Lemma length_targets urls : List.length (targets urls) = List.length urls.
Proof. apply length_enumerate_from. Qed.


Lemma In_targets urls k url :
  nth_error urls k = Some url -> In (k, url) (targets urls).
Proof. apply (In_enumerate_from urls 0). Qed.

Lemma In_targets_inv urls t :
  In t (targets urls) -> nth_error urls (fst t) = Some (snd t).
Proof.
  intros H. apply In_enumerate_from_inv in H as (k & Hk & Hn).
  simpl in Hk. now rewrite Hk.
Qed.

(** ** The output file and the page files *)

Section AfterDownloads.

Variable E : env.
Variable URLS_TO_DOWNLOAD : list string.
Variable DOWNLOAD_DIRECTORY : string.
Variable MERGED_FILENAME : string.

Lemma In_after_attempts ts : forall l x,
  In x (fold_left (attempt_state E DOWNLOAD_DIRECTORY) ts l) ->
  In x l \/
  exists t, In t ts /\
    ent_name x = Path_name (page_path DOWNLOAD_DIRECTORY (fst t)).
Proof.
  induction ts as [|t r IH]; intros l x Hin; [now left|].
  simpl in Hin. destruct (IH _ _ Hin) as [Hx|(t' & Ht' & Hn)].
  - unfold attempt_state in Hx.
    destruct (outcome E DOWNLOAD_DIRECTORY t); auto;
      (apply In_put_inv in Hx as [-> | Hx]; [|now left]);
      right; exists t; (split; [now left|reflexivity]).
  - right. exists t'. split; [now right|exact Hn].
Qed.

(** When no readable file of the directory has the name of the merged file
    and the merged file is none of the page files, the same holds after the
    download loop. *)
Lemma output_not_an_input_after_downloads s :
  output_not_an_input MERGED_FILENAME s ->
  (forall i, i < List.length URLS_TO_DOWNLOAD ->
     Path_name (page_path DOWNLOAD_DIRECTORY i) <> MERGED_FILENAME) ->
  output_not_an_input MERGED_FILENAME
    (after_downloads E URLS_TO_DOWNLOAD DOWNLOAD_DIRECTORY s).
Proof.
  intros Hs Hpages pdf Hin Hn.
  unfold after_downloads in Hin. simpl listing in Hin.
  apply In_after_attempts in Hin as [Hin|(t & Ht & Hname)].
  - now apply Hs.
  - exfalso. apply (Hpages (fst t)).
    + apply In_targets_inv in Ht. apply nth_error_Some. congruence.
    + congruence.
Qed.

Lemma output_is_not_read_back s :
  output_not_an_input MERGED_FILENAME s ->
  (forall i, i < List.length URLS_TO_DOWNLOAD ->
     Path_name (page_path DOWNLOAD_DIRECTORY i) <> MERGED_FILENAME) ->
  output_is_an_input MERGED_FILENAME
    (after_downloads E URLS_TO_DOWNLOAD DOWNLOAD_DIRECTORY s) = false.
Proof.
  intros Hs Hpages.
  now apply output_not_an_input_false, output_not_an_input_after_downloads.
Qed.

End AfterDownloads.



(** ** The driver: claims *)

Section DriverClaims.

Variable E : env.
Variable URLS_TO_DOWNLOAD : list string.
Variable DOWNLOAD_DIRECTORY : string.
Variable MERGED_FILENAME : string.

Local Abbreviation run_main :=
  (main E URLS_TO_DOWNLOAD DOWNLOAD_DIRECTORY MERGED_FILENAME).
Local Abbreviation run_merge :=
  (merge_pdfs_by_creation_time E DOWNLOAD_DIRECTORY MERGED_FILENAME).
Local Abbreviation successes := (successes E URLS_TO_DOWNLOAD DOWNLOAD_DIRECTORY).
Local Abbreviation targets := (targets URLS_TO_DOWNLOAD).
Local Abbreviation after_downloads :=
  (after_downloads E URLS_TO_DOWNLOAD DOWNLOAD_DIRECTORY).
Local Abbreviation page_path := (page_path DOWNLOAD_DIRECTORY).
Local Abbreviation attempt_events := (attempt_events E DOWNLOAD_DIRECTORY).

Definition only_one_line (t : nat * string) : event :=
  Stdout (nl +++ "Only one PDF was downloaded. No merging required: "
          +++ Path_name (page_path (fst t))).

Definition no_files_line : event :=
  Stdout (nl +++ "No files were successfully downloaded.").

(** What main does after the download loop. *)
Definition decision_events (s : fs) : list event :=
  match successes with
  | _ :: _ :: _ =>
      Call_merge DOWNLOAD_DIRECTORY MERGED_FILENAME
        :: trace_of (run_merge (after_downloads s))
  | [t] => [only_one_line t]
  | [] => [no_files_line]
  end.

Lemma main_shape s :
  mkdir_error E = None ->
  exists tail,
    (tail = [] \/ tail = [complete_line]) /\
    trace_of (run_main s) =
      banner E DOWNLOAD_DIRECTORY ++ flat_map attempt_events targets
      ++ decision_events s ++ tail /\
    state_of (run_main s) =
      match successes with
      | _ :: _ :: _ => state_of (run_merge (after_downloads s))
      | _ => after_downloads s
      end.
Proof.
  intros Hmk. unfold decision_events.
  destruct successes as [|t [|t' r]] eqn:Hs.
  - exists [complete_line]. rewrite (main_nothing _ _ _ _ s Hmk Hs). auto.
  - exists [complete_line]. rewrite (main_single _ _ _ _ s t Hmk Hs). auto.
  - assert (Hlen : 2 <= List.length successes) by (rewrite Hs; simpl; lia).
    rewrite (main_merging _ _ _ _ s Hmk Hlen).
    destruct (run_merge (after_downloads s)) as [[tm [[]|e]] sm].
    + exists [complete_line]. unfold trace_of, state_of; simpl.
      split; [auto|]. split; reflexivity.
    + exists []. unfold trace_of, state_of; simpl.
      split; [auto|]. split; [|reflexivity].
      now rewrite !app_nil_r.
Qed.

Lemma main_merges s :
  mkdir_error E = None ->
  merges_of (trace_of (run_main s)) =
  if (2 <=? List.length successes)%nat
  then [(DOWNLOAD_DIRECTORY, MERGED_FILENAME)] else [].
Proof.
  intros Hmk. destruct (main_shape s Hmk) as (tail & Htail & -> & _).
  rewrite !merges_of_app, merges_of_attempts.
  assert (Ht : merges_of tail = []) by (destruct Htail as [-> | ->]; reflexivity).
  rewrite Ht. unfold decision_events.
  destruct successes as [|t [|t' r]]; try reflexivity.
  simpl. now rewrite merges_of_merge.
Qed.

Lemma main_appends s :
  mkdir_error E = None ->
  appends_of (trace_of (run_main s)) =
  match successes with
  | _ :: _ :: _ => appends_of (trace_of (run_merge (after_downloads s)))
  | _ => []
  end.
Proof.
  intros Hmk. destruct (main_shape s Hmk) as (tail & Htail & -> & _).
  rewrite !appends_of_app, appends_of_attempts.
  assert (Ht : appends_of tail = []) by (destruct Htail as [-> | ->]; reflexivity).
  rewrite Ht. unfold decision_events.
  destruct successes as [|t [|t' r]]; try reflexivity.
  simpl. now rewrite app_nil_r.
Qed.

Lemma main_opens s :
  mkdir_error E = None ->
  opens_of (trace_of (run_main s)) =
  match successes with
  | _ :: _ :: _ => opens_of (trace_of (run_merge (after_downloads s)))
  | _ => []
  end.
Proof.
  intros Hmk. destruct (main_shape s Hmk) as (tail & Htail & -> & _).
  rewrite !opens_of_app, opens_of_attempts.
  assert (Ht : opens_of tail = []) by (destruct Htail as [-> | ->]; reflexivity).
  rewrite Ht. unfold decision_events.
  destruct successes as [|t [|t' r]]; try reflexivity.
  simpl. now rewrite app_nil_r.
Qed.

Lemma main_downloads s :
  mkdir_error E = None ->
  downloads_of (trace_of (run_main s)) =
  map (fun t => (snd t, page_path (fst t))) targets.
Proof.
  intros Hmk. destruct (main_shape s Hmk) as (tail & Htail & -> & _).
  rewrite !downloads_of_app, downloads_of_attempts.
  assert (Ht : downloads_of tail = [])
    by (destruct Htail as [-> | ->]; reflexivity).
  rewrite Ht. unfold decision_events.
  destruct successes as [|t [|t' r]]; simpl; rewrite ?downloads_of_merge;
    now rewrite !app_nil_r.
Qed.

Lemma In_decision_events s ev :
  mkdir_error E = None ->
  In ev (decision_events s) -> In ev (trace_of (run_main s)).
Proof.
  intros Hmk Hin. destruct (main_shape s Hmk) as (tail & _ & -> & _).
  apply in_or_app; right. apply in_or_app; right. apply in_or_app; now left.
Qed.

Lemma In_attempt_events s ev :
  mkdir_error E = None ->
  In ev (flat_map attempt_events targets) -> In ev (trace_of (run_main s)).
Proof.
  intros Hmk Hin. destruct (main_shape s Hmk) as (tail & _ & -> & _).
  apply in_or_app; right. apply in_or_app; now left.
Qed.


(** C3. Once the directory is prepared and every target has been attempted,
    the driver calls the merge stage if and only if two or more fetches
    succeeded; with exactly one success it reports that file and calls
    neither the merge stage nor the merger, and opens no output file; with no
    success it prints "No files were successfully downloaded." and writes no
    merged file. *)
Theorem driver_merges_iff_two_successes (s : fs) :
  mkdir_error E = None ->
  let tr := trace_of (run_main s) in
  (In (Call_merge DOWNLOAD_DIRECTORY MERGED_FILENAME) tr <->
   2 <= List.length successes) /\
  (forall t, successes = [t] ->
     In (only_one_line t) tr /\
     merges_of tr = [] /\ appends_of tr = [] /\ opens_of tr = [] /\
     state_of (run_main s) = after_downloads s) /\
  (successes = [] ->
     In no_files_line tr /\
     merges_of tr = [] /\ appends_of tr = [] /\ opens_of tr = [] /\
     state_of (run_main s) = after_downloads s).
Proof.
  intros Hmk tr. subst tr.
  split; [|split].
  - rewrite <- In_merges_of, main_merges by exact Hmk.
    destruct (Nat.leb_spec 2 (List.length successes)); simpl; intuition lia.
  - intros t Hs.
    split; [apply In_decision_events; [exact Hmk|];
            unfold decision_events; rewrite Hs; now left|].
    rewrite main_merges, main_appends, main_opens by exact Hmk.
    destruct (main_shape s Hmk) as (_ & _ & _ & ->).
    rewrite Hs. simpl. auto.
  - intros Hs.
    split; [apply In_decision_events; [exact Hmk|];
            unfold decision_events; rewrite Hs; now left|].
    rewrite main_merges, main_appends, main_opens by exact Hmk.
    destruct (main_shape s Hmk) as (_ & _ & _ & ->).
    rewrite Hs. simpl. auto.
Qed.


(** C10. Whether the driver calls the merge stage is decided by the number of
    fetches that succeeded in this run alone, whatever the directory held
    before: with at most one success there is no call of the merge stage, no
    append and no output file, also when the directory already holds two or
    more PDF files. *)
Theorem merge_decision_counts_this_run_only (s : fs) :
  mkdir_error E = None ->
  let tr := trace_of (run_main s) in
  merges_of tr =
    (if (2 <=? List.length successes)%nat
     then [(DOWNLOAD_DIRECTORY, MERGED_FILENAME)] else []) /\
  (List.length successes <= 1 ->
     ~ In (Call_merge DOWNLOAD_DIRECTORY MERGED_FILENAME) tr /\
     appends_of tr = [] /\ opens_of tr = [] /\
     state_of (run_main s) = after_downloads s).
Proof.
  intros Hmk tr. subst tr.
  split; [now apply main_merges|].
  intros Hlen.
  rewrite <- In_merges_of, main_merges, main_appends, main_opens by exact Hmk.
  destruct (main_shape s Hmk) as (_ & _ & _ & ->).
  destruct successes as [|t [|t' r]]; simpl in *; try lia; auto.
Qed.

End DriverClaims.

(** ** One fetch fails *)

Lemma In_lookup e l : In e l -> lookup (ent_name e) l <> None.
Proof.
  induction l as [|x r IH]; simpl; [contradiction|].
  intros [-> | Hin].
  - now rewrite String.eqb_refl.
  - destruct (ent_name x =? ent_name e)%string; [discriminate|auto].
Qed.

Lemma fetch_succeeds_Rendered E D t :
  fetch_succeeds E D t = true ->
  exists pages stamp, outcome E D t = Rendered pages stamp.
Proof.
  unfold fetch_succeeds. destruct (outcome E D t); try discriminate.
  intros _. eauto.
Qed.

Lemma fetch_fails_failure E D t :
  fetch_succeeds E D t = false ->
  exists e, failure_of (outcome E D t) = Some e.
Proof.
  unfold fetch_succeeds. destruct (outcome E D t); try discriminate;
    intros _; simpl; eauto.
Qed.

Section OneFetchFails.

Variable E : env.
Variable URLS_TO_DOWNLOAD : list string.
Variable DOWNLOAD_DIRECTORY : string.
Variable MERGED_FILENAME : string.

Local Abbreviation run_main :=
  (main E URLS_TO_DOWNLOAD DOWNLOAD_DIRECTORY MERGED_FILENAME).
Local Abbreviation run_merge :=
  (merge_pdfs_by_creation_time E DOWNLOAD_DIRECTORY MERGED_FILENAME).
Local Abbreviation successes := (successes E URLS_TO_DOWNLOAD DOWNLOAD_DIRECTORY).
Local Abbreviation after_downloads :=
  (after_downloads E URLS_TO_DOWNLOAD DOWNLOAD_DIRECTORY).
Local Abbreviation page_path := (page_path DOWNLOAD_DIRECTORY).
Local Abbreviation outcome := (outcome E DOWNLOAD_DIRECTORY).
Local Abbreviation fetch_succeeds := (fetch_succeeds E DOWNLOAD_DIRECTORY).

Lemma failed_fetch_logged s k url e :
  mkdir_error E = None ->
  nth_error URLS_TO_DOWNLOAD k = Some url ->
  failure_of (outcome (k, url)) = Some e ->
  In (critical_line url e) (trace_of (run_main s)).
Proof.
  intros Hmk Hk Hf. apply In_attempt_events; [exact Hmk|].
  apply in_flat_map. exists (k, url). split; [now apply In_targets|].
  unfold attempt_events. simpl fst; simpl snd. right. right.
  destruct (outcome (k, url)); simpl in Hf; try discriminate;
    injection Hf as ->; simpl; auto.
Qed.

Lemma page_in_successes_inv k t :
  In t successes -> page_path (fst t) = page_path k ->
  fst t = k /\ nth_error URLS_TO_DOWNLOAD k = Some (snd t)
  /\ fetch_succeeds (k, snd t) = true.
Proof.
  intros Hin Hp. apply filter_In in Hin as [Hin Hok].
  apply (f_equal Path_name), page_name_inj in Hp.
  apply In_targets_inv in Hin. destruct t as [i u]; simpl in *. subst i.
  auto.
Qed.

Lemma lookup_after_downloads s k url :
  nth_error URLS_TO_DOWNLOAD k = Some url ->
  lookup (Path_name (page_path k)) (listing (after_downloads s)) =
  match outcome (k, url) with
  | CloseError pages stamp _ | Rendered pages stamp =>
      Some (mkEntry (Path_name (page_path k)) stamp (Pdf pages))
  | _ => lookup (Path_name (page_path k)) (listing s)
  end.
Proof.
  exact (lookup_after_loop E DOWNLOAD_DIRECTORY URLS_TO_DOWNLOAD
           0 (listing s) k url).
Qed.

Lemma success_entry s j url pages stamp :
  nth_error URLS_TO_DOWNLOAD j = Some url ->
  outcome (j, url) = Rendered pages stamp ->
  In (mkEntry (Path_name (page_path j)) stamp (Pdf pages))
     (pdf_inputs (after_downloads s)).
Proof.
  intros Hj Hout.
  apply sorted_by_ctime_In, filter_In. split.
  - pose proof (lookup_after_downloads s j url Hj) as H.
    rewrite Hout in H. now apply lookup_In in H.
  - apply is_pdf_page_name.
Qed.

Lemma no_file_no_input s k url :
  nth_error URLS_TO_DOWNLOAD k = Some url ->
  wrote_file (outcome (k, url)) = false ->
  lookup (Path_name (page_path k)) (listing s) = None ->
  ~ In (str (page_path k))
      (map (fun pdf => str (joinpath DOWNLOAD_DIRECTORY (ent_name pdf)))
         (pdf_inputs (after_downloads s))).
Proof.
  intros Hk Hw Hnone Hin.
  apply in_map_iff in Hin as (e & Hstr & He).
  apply str_joinpath_inj in Hstr.
  apply sorted_by_ctime_In, filter_In in He as [He _].
  apply In_lookup in He. rewrite Hstr in He. apply He.
  change ("page_" +++ decimal (k + 1) +++ ".pdf")
    with (Path_name (page_path k)).
  rewrite (lookup_after_downloads s k url Hk).
  destruct (outcome (k, url)); simpl in Hw; try discriminate; exact Hnone.
Qed.

(** C4, amended. When the fetch of the target at index [k] fails and all other
    fetches succeed: the failure is caught and logged, every target of the
    list is still attempted, in order; the path of target [k] is not in the
    list of successful downloads and every other target's path is.  When the
    merge then runs (two or more successes), it is called on the directory:
    every succeeding page file is appended and, if the output can be written
    (it can be opened, no readable file of the directory has its name and it
    is none of the page files), the merged file contains its pages.  No file
    for index [k] is appended provided the fetch failed before writing its
    file and the directory held no [page_<k+1>.pdf] before the run. *)
Theorem failed_fetch_is_left_out (s : fs) (k : nat) (url_k : string) :
  mkdir_error E = None ->
  nth_error URLS_TO_DOWNLOAD k = Some url_k ->
  fetch_succeeds (k, url_k) = false ->
  (forall j url, nth_error URLS_TO_DOWNLOAD j = Some url -> j <> k ->
     fetch_succeeds (j, url) = true) ->
  let tr := trace_of (run_main s) in
  (exists e, failure_of (outcome (k, url_k)) = Some e /\
             In (critical_line url_k e) tr) /\
  downloads_of tr =
    map (fun t => (snd t, page_path (fst t))) (targets URLS_TO_DOWNLOAD) /\
  (exists downloaded_paths,
     result_of (download_loop E DOWNLOAD_DIRECTORY 0 URLS_TO_DOWNLOAD []
                  (Some (listing s))) = Ok downloaded_paths /\
     ~ In (page_path k) downloaded_paths /\
     forall j url, nth_error URLS_TO_DOWNLOAD j = Some url -> j <> k ->
       In (page_path j) downloaded_paths) /\
  (2 <= List.length successes ->
     In (Call_merge DOWNLOAD_DIRECTORY MERGED_FILENAME) tr /\
     (forall j url, nth_error URLS_TO_DOWNLOAD j = Some url -> j <> k ->
        In (Append (str (page_path j))) tr) /\
     (open_error E = None ->
      output_not_an_input MERGED_FILENAME s ->
      (forall i, i < List.length URLS_TO_DOWNLOAD ->
         Path_name (page_path i) <> MERGED_FILENAME) ->
      forall j url pages stamp,
        nth_error URLS_TO_DOWNLOAD j = Some url ->
        outcome (j, url) = Rendered pages stamp ->
        exists before after,
          lookup MERGED_FILENAME (listing (state_of (run_main s))) =
            Some (mkEntry MERGED_FILENAME (merged_ctime E)
                    (Pdf (before ++ pages ++ after))))) /\
  (wrote_file (outcome (k, url_k)) = false ->
   lookup (Path_name (page_path k)) (listing s) = None ->
   ~ In (Append (str (page_path k))) tr).
Proof.
  intros Hmk Hk Hfail Hothers tr. subst tr.
  split; [|split; [|split; [|split]]].
  - destruct (fetch_fails_failure _ _ _ Hfail) as (e & Hf).
    exists e. split; [exact Hf|]. now apply (failed_fetch_logged s k).
  - now apply main_downloads.
  - rewrite download_loop_spec. unfold result_of; simpl fst; simpl snd.
    eexists. split; [reflexivity|]. simpl app. split.
    + intros Hin. apply in_map_iff in Hin as (t & Hp & Ht).
      destruct (page_in_successes_inv k t Ht Hp) as (_ & Hn & Hok).
      rewrite Hk in Hn. injection Hn as Hn. rewrite <- Hn in Hok.
      rewrite Hok in Hfail. discriminate.
    + intros j url Hj Hne.
      apply (in_map (fun t => page_path (fst t)) _ (j, url)).
      apply filter_In. split; [now apply In_targets|now apply (Hothers j)].
  - intros Hlen.
    assert (Hmerges := main_merges E URLS_TO_DOWNLOAD DOWNLOAD_DIRECTORY
                         MERGED_FILENAME s Hmk).
    assert (Happs := main_appends E URLS_TO_DOWNLOAD DOWNLOAD_DIRECTORY
                       MERGED_FILENAME s Hmk).
    destruct (main_shape E URLS_TO_DOWNLOAD DOWNLOAD_DIRECTORY
                MERGED_FILENAME s Hmk) as (_ & _ & _ & Hstate).
    destruct successes as [|t [|t' r]] eqn:Hs; simpl in Hlen; try lia.
    assert (Hne : pdf_inputs (after_downloads s) <> []).
    { apply pdf_inputs_after_downloads. rewrite Hs. discriminate. }
    split; [|split].
    + apply In_merges_of. rewrite Hmerges. simpl. now left.
    + intros j url Hj Hjk. apply In_appends_of.
      rewrite Happs, merge_appends.
      destruct (fetch_succeeds_Rendered _ _ _ (Hothers j url Hj Hjk))
        as (pages & stamp & Ho).
      apply (in_map (fun pdf => str (joinpath DOWNLOAD_DIRECTORY (ent_name pdf)))
               _ _ (success_entry s j url pages stamp Hj Ho)).
    + intros Hopen Hout Hpages j url pages stamp Hj Ho.
      assert (Hself := output_is_not_read_back E URLS_TO_DOWNLOAD
                         DOWNLOAD_DIRECTORY MERGED_FILENAME s Hout Hpages).
      destruct (flat_map_In_split pages_of _ _
                  (success_entry s j url pages stamp Hj Ho))
        as (before & after & Hsplit).
      exists before, after.
      rewrite Hstate, (merge_output_entry _ _ _ _ Hne Hopen Hself).
      unfold merged_entry. now rewrite Hsplit.
  - intros Hw Hnone Hin. apply In_appends_of in Hin.
    rewrite (main_appends E URLS_TO_DOWNLOAD DOWNLOAD_DIRECTORY
               MERGED_FILENAME s Hmk) in Hin.
    destruct successes as [|t [|t' r]]; try contradiction.
    rewrite merge_appends in Hin.
    exact (no_file_no_input s k url_k Hk Hw Hnone Hin).
Qed.

End OneFetchFails.

(** ** Runs of the script as the source configures it *)



Lemma driver_merges_iff_two_successes_witness :
  In (Call_merge "downloaded_pdfs" "combined_report.pdf")
     (trace_of (Source.main env_second_fails None)) /\
  In (Stdout (nl +++ "Only one PDF was downloaded. No merging required: page_1.pdf"))
     (trace_of (Source.main env_only_first None)) /\
  merges_of (trace_of (Source.main env_only_first None)) = [].
Proof.
  destruct (driver_merges_iff_two_successes env_second_fails
              Source.URLS_TO_DOWNLOAD Source.DOWNLOAD_DIRECTORY
              Source.MERGED_FILENAME None eq_refl) as (Hiff & _ & _).
  destruct (driver_merges_iff_two_successes env_only_first
              Source.URLS_TO_DOWNLOAD Source.DOWNLOAD_DIRECTORY
              Source.MERGED_FILENAME None eq_refl) as (_ & Hone & _).
  destruct (Hone (0, "https://www.google.com/") eq_refl) as (Hline & Hm & _).
  split; [apply (proj2 Hiff); vm_compute; lia|].
  split; [exact Hline|exact Hm].
Defined.


Lemma merge_decision_counts_this_run_only_witness :
  2 <= List.length (filter is_pdf_name (listing rerun_dir)) /\
  ~ In (Call_merge "downloaded_pdfs" "combined_report.pdf")
       (trace_of (Source.main env_only_first rerun_dir)) /\
  opens_of (trace_of (Source.main env_only_first rerun_dir)) = [].
Proof.
  destruct (merge_decision_counts_this_run_only env_only_first
              Source.URLS_TO_DOWNLOAD Source.DOWNLOAD_DIRECTORY
              Source.MERGED_FILENAME rerun_dir eq_refl) as (_ & Hfew).
  destruct Hfew as (Hno & _ & Hopens & _); [vm_compute; lia|].
  split; [vm_compute; lia|].
  split; [exact Hno|exact Hopens].
Defined.

(** C4, as the spec states it, fails: the fetch of the second target fails
    and the other two succeed, yet the merge, which scans the directory,
    appends the [page_2.pdf] an earlier run left there. *)
Lemma stale_page_is_merged_after_failed_fetch :
  let out := Source.main env_second_fails stale_dir in
  map (fetch_succeeds env_second_fails Source.DOWNLOAD_DIRECTORY)
    (targets Source.URLS_TO_DOWNLOAD) = [true; false; true] /\
  In (Append "downloaded_pdfs/page_2.pdf") (trace_of out) /\
  lookup "combined_report.pdf" (listing (state_of out)) =
    Some (mkEntry "combined_report.pdf" 100
            (Pdf ["stale"; "https://www.google.com/"; "https://example.com/"])).
Proof.
  intros out.
  split; [reflexivity|].
  split; [apply In_appends_of; vm_compute; auto|reflexivity].
Qed.

Lemma failed_fetch_is_left_out_witness :
  let tr := trace_of (Source.main env_second_fails None) in
  In (Stdout ("[CRITICAL ERROR] Failed to download "
              +++ "https://en.wikipedia.org/wiki/Python_(programming_language)"
              +++ ": net::ERR_NAME_NOT_RESOLVED")) tr /\
  In (Append "downloaded_pdfs/page_3.pdf") tr /\
  ~ In (Append "downloaded_pdfs/page_2.pdf") tr.
Proof.
  intros tr.
  destruct (failed_fetch_is_left_out env_second_fails Source.URLS_TO_DOWNLOAD
              Source.DOWNLOAD_DIRECTORY Source.MERGED_FILENAME None 1
              "https://en.wikipedia.org/wiki/Python_(programming_language)"
              eq_refl eq_refl eq_refl)
    as ((e & He & Hlog) & _ & _ & Hmerge & Hleft).
  { intros [|[|[|j]]] url Hj Hne; simpl in Hj; try discriminate;
      try (injection Hj as <-; reflexivity).
    - contradiction.
    - destruct j; discriminate. }
  simpl in He. injection He as <-.
  destruct Hmerge as (_ & Happ & _); [vm_compute; lia|].
  split; [exact Hlog|].
  split; [exact (Happ 2 "https://example.com/" eq_refl ltac:(discriminate))|].
  apply Hleft; reflexivity.
Defined.

(** * Further properties of the code *)

(** ** download_page_as_pdf *)

Section Fetcher.

Variable E : env.

(** X1. In an existing directory download_page_as_pdf returns exactly when
    the browser renders the page; the value returned is the path it was
    given, the file of that name then holds the rendered pages and the
    "Successfully saved" line has been printed. *)
Theorem download_returns_its_path_iff_rendered
  (url : string) (filepath : Path) (l : list entry) :
  let out := download_page_as_pdf E url filepath (Some l) in
  (forall p, result_of out = Ok p <->
     p = filepath /\
     exists pages stamp, browser E url filepath = Rendered pages stamp) /\
  (forall pages stamp, browser E url filepath = Rendered pages stamp ->
     lookup (Path_name filepath) (listing (state_of out)) =
       Some (mkEntry (Path_name filepath) stamp (Pdf pages)) /\
     In (Stdout ("   Successfully saved to: " +++ Path_name filepath))
        (trace_of out)).
Proof.
  intros out. subst out.
  unfold download_page_as_pdf, page_pdf, write_file, bind, print, emit, raise, ret.
  destruct (browser E url filepath) as [e|e|pages stamp e|pages stamp];
    unfold result_of, state_of, trace_of; simpl fst; simpl snd.
  - split; [|discriminate].
    intros p; split; [discriminate|intros (_ & ? & ? & ?); discriminate].
  - split; [|discriminate].
    intros p; split; [discriminate|intros (_ & ? & ? & ?); discriminate].
  - split; [|discriminate].
    intros p; split; [discriminate|intros (_ & ? & ? & ?); discriminate].
  - split.
    + intros p; split.
      * intros [= <-]. split; [reflexivity|eauto].
      * intros (-> & _). reflexivity.
    + intros pages' stamp' [= <- <-]. split.
      * apply (lookup_put_same (mkEntry (Path_name filepath) stamp (Pdf pages))).
      * simpl. auto.
Qed.

(** X2. Whatever the browser does, download_page_as_pdf creates or changes
    no entry of the directory other than its destination. *)
Theorem download_touches_only_its_destination
  (url : string) (filepath : Path) (s : fs) (nm : string) :
  nm <> Path_name filepath ->
  lookup nm (listing (state_of (download_page_as_pdf E url filepath s))) =
  lookup nm (listing s).
Proof.
  intros Hnm.
  unfold download_page_as_pdf, page_pdf, write_file, bind, print, emit, raise, ret.
  destruct (browser E url filepath) as [e|e|pages stamp e|pages stamp];
    destruct s as [l|]; unfold state_of; simpl snd; simpl listing;
    try reflexivity; now apply lookup_put_other.
Qed.

(** X3. A failure of navigation or of the PDF export is not caught inside
    download_page_as_pdf: the same exception leaves the function, the
    directory is as before and "Successfully saved" is not printed. *)
Theorem download_failure_before_export_changes_nothing
  (url : string) (filepath : Path) (s : fs) (e : exn) :
  browser E url filepath = GotoError e \/ browser E url filepath = PdfError e ->
  let out := download_page_as_pdf E url filepath s in
  result_of out = Raise e /\
  state_of out = s /\
  ~ In (Stdout ("   Successfully saved to: " +++ Path_name filepath))
       (trace_of out).
Proof.
  intros H out. subst out.
  unfold download_page_as_pdf, page_pdf, write_file, bind, print, emit, raise, ret.
  destruct H as [-> | ->];
    unfold result_of, state_of, trace_of; simpl fst; simpl snd;
    (split; [reflexivity|split; [reflexivity|]]);
    simpl; intros H; repeat (destruct H as [H|H]; [discriminate H|]); exact H.
Qed.

End Fetcher.

Lemma download_touches_only_its_destination_witness :
  lookup "page_2.pdf"
    (listing (state_of (download_page_as_pdf env_ok "https://example.com/"
                          (joinpath "downloaded_pdfs" "page_1.pdf") rerun_dir))) =
  Some (mkEntry "page_2.pdf" 20 (Pdf ["two"])).
Proof.
  rewrite (download_touches_only_its_destination env_ok "https://example.com/"
             (joinpath "downloaded_pdfs" "page_1.pdf") rerun_dir "page_2.pdf");
    [reflexivity|discriminate].
Defined.

Lemma download_failure_before_export_changes_nothing_witness :
  let out := download_page_as_pdf env_second_fails "https://example.org/"
               (joinpath "downloaded_pdfs" "page_2.pdf") stale_dir in
  result_of out = Raise (Exception "net::ERR_NAME_NOT_RESOLVED") /\
  state_of out = stale_dir.
Proof.
  intros out.
  destruct (download_failure_before_export_changes_nothing env_second_fails
              "https://example.org/" (joinpath "downloaded_pdfs" "page_2.pdf")
              stale_dir (Exception "net::ERR_NAME_NOT_RESOLVED")
              (or_introl eq_refl)) as (Hr & Hs & _).
  split; [exact Hr|exact Hs].
Defined.

(** ** merge_pdfs_by_creation_time *)

Lemma endswith_iff (suf s : string) :
  endswith suf s = true <-> exists pre, s = pre +++ suf.
Proof.
  split.
  - induction s as [|c r IH]; cbn [endswith].
    + rewrite orb_false_r. intros H. apply String.eqb_eq in H.
      exists EmptyString. now subst.
    + intros H. apply orb_true_iff in H as [H|H].
      * apply String.eqb_eq in H. exists EmptyString. now subst.
      * destruct (IH H) as (pre & ->). now exists (String c pre).
  - intros (pre & ->). apply endswith_append.
Qed.

Definition ctime_lt (a b : entry) : Prop := (ent_ctime a < ent_ctime b)%Z.

Lemma sorted_distinct_is_strict l :
  StronglySorted ctime_le l -> NoDup (map ent_ctime l) ->
  StronglySorted ctime_lt l.
Proof.
  induction 1 as [|a r Hs IH Hall]; intros Hnd; [constructor|].
  simpl in Hnd. inversion Hnd as [|x m Hnotin Hnd']; subst.
  constructor; [now apply IH|].
  rewrite Forall_forall in *. intros b Hb.
  specialize (Hall b Hb). unfold ctime_le, ctime_lt in *.
  assert (ent_ctime a <> ent_ctime b).
  { intros Heq. apply Hnotin. rewrite Heq. now apply in_map. }
  lia.
Qed.

Lemma strictly_sorted_unique l1 : forall l2,
  Permutation l1 l2 ->
  StronglySorted ctime_lt l1 -> StronglySorted ctime_lt l2 -> l1 = l2.
Proof.
  induction l1 as [|a r1 IH]; intros l2 Hp H1 H2.
  - now apply Permutation_nil in Hp.
  - destruct l2 as [|b r2];
      [apply Permutation_sym, Permutation_nil in Hp; discriminate|].
    inversion H1 as [|? ? Hs1 Ha]; subst.
    inversion H2 as [|? ? Hs2 Hb]; subst.
    rewrite Forall_forall in Ha, Hb.
    assert (Hab : a = b).
    { assert (Hin1 : In a (b :: r2))
        by (eapply Permutation_in; [exact Hp|now left]).
      assert (Hin2 : In b (a :: r1))
        by (eapply Permutation_in; [apply Permutation_sym, Hp|now left]).
      destruct Hin1 as [->|Hin1]; [reflexivity|].
      destruct Hin2 as [->|Hin2]; [reflexivity|].
      specialize (Ha b Hin2). specialize (Hb a Hin1).
      unfold ctime_lt in *. lia. }
    subst b. f_equal. apply IH; [|assumption|assumption].
    now apply Permutation_cons_inv in Hp.
Qed.

Lemma filter_perm {A} (f : A -> bool) l1 l2 :
  Permutation l1 l2 -> Permutation (filter f l1) (filter f l2).
Proof.
  induction 1 as [|x l l' _ IH|x y l|l l' l'' _ IH1 _ IH2]; simpl.
  - constructor.
  - destruct (f x); [now constructor|exact IH].
  - destruct (f x), (f y); try apply Permutation_refl. apply perm_swap.
  - eapply perm_trans; eassumption.
Qed.

(** X4. The files the merge stage appends are exactly the entries of the
    directory whose name is some text followed by [.pdf] ([page_1.pdf] and a
    file called just [.pdf] are taken, [page_1.pdf.bak] is not), each once, in
    ascending order of the value [os.path.getctime] returns for them, entries
    with equal values in the order of the scan. *)
Theorem merge_appends_matching_files_in_getctime_order
  (E : env) (directory output_filename : string) (s : fs) :
  exists pdf_files,
    appends_of (trace_of (merge_pdfs_by_creation_time E directory
                            output_filename s)) =
      map (fun pdf => str (mkPath directory (ent_name pdf))) pdf_files /\
    (forall e, In e pdf_files <->
       In e (listing s) /\ exists pre, ent_name e = pre +++ ".pdf") /\
    Permutation pdf_files (filter is_pdf_name (listing s)) /\
    StronglySorted ctime_le pdf_files /\
    (forall t, filter (fun x => (ent_ctime x =? t)%Z) pdf_files =
               filter (fun x => (ent_ctime x =? t)%Z)
                 (filter is_pdf_name (listing s))).
Proof.
  exists (pdf_inputs s).
  split; [apply merge_appends|].
  split; [|split; [|split]].
  - intros e. unfold pdf_inputs. rewrite sorted_by_ctime_In, filter_In.
    unfold is_pdf_name. now rewrite endswith_iff.
  - apply Permutation_sym, sorted_by_ctime_perm.
  - apply sorted_by_ctime_sorted.
  - intros t. apply sorted_by_ctime_stable.
Qed.

(** X5. When the matching files have pairwise different ctimes, the order in
    which the merge stage appends them does not depend on the order in which
    the directory scan yields the entries: two listings of the same entries
    give the same sequence of [merger.append] calls. *)
Theorem merge_order_ignores_scan_order
  (E : env) (directory output_filename : string) (l1 l2 : list entry) :
  Permutation l1 l2 ->
  NoDup (map ent_ctime (filter is_pdf_name l1)) ->
  appends_of (trace_of (merge_pdfs_by_creation_time E directory
                          output_filename (Some l1))) =
  appends_of (trace_of (merge_pdfs_by_creation_time E directory
                          output_filename (Some l2))).
Proof.
  intros Hp Hnd. rewrite !merge_appends. f_equal.
  unfold pdf_inputs. simpl listing.
  assert (Hpf : Permutation (filter is_pdf_name l1) (filter is_pdf_name l2))
    by now apply filter_perm.
  assert (Hps : Permutation (sorted_by_ctime (filter is_pdf_name l1))
                            (sorted_by_ctime (filter is_pdf_name l2))).
  { eapply perm_trans; [apply Permutation_sym, sorted_by_ctime_perm|].
    eapply perm_trans; [exact Hpf|apply sorted_by_ctime_perm]. }
  apply strictly_sorted_unique; [exact Hps| |].
  - apply sorted_distinct_is_strict; [apply sorted_by_ctime_sorted|].
    eapply Permutation_NoDup; [|exact Hnd].
    apply Permutation_map, sorted_by_ctime_perm.
  - apply sorted_distinct_is_strict; [apply sorted_by_ctime_sorted|].
    eapply Permutation_NoDup; [|exact Hnd].
    apply Permutation_map.
    eapply perm_trans; [exact Hpf|apply sorted_by_ctime_perm].
Qed.

Lemma merge_order_ignores_scan_order_witness :
  appends_of (trace_of (merge_pdfs_by_creation_time env_ok "downloaded_pdfs"
     "combined_report.pdf"
     (Some [ mkEntry "b.pdf" 2 (Pdf ["b"]); mkEntry "a.pdf" 1 (Pdf ["a"]) ]))) =
  [ "downloaded_pdfs/a.pdf"; "downloaded_pdfs/b.pdf" ].
Proof.
  rewrite (merge_order_ignores_scan_order env_ok "downloaded_pdfs"
             "combined_report.pdf"
             [ mkEntry "b.pdf" 2 (Pdf ["b"]); mkEntry "a.pdf" 1 (Pdf ["a"]) ]
             [ mkEntry "a.pdf" 1 (Pdf ["a"]); mkEntry "b.pdf" 2 (Pdf ["b"]) ]).
  - reflexivity.
  - apply perm_swap.
  - simpl. constructor; [simpl; intros [H|[]]; discriminate H|].
    constructor; [intros []|constructor].
Defined.

Lemma flat_map_all_nil {A B} (f : A -> list B) l :
  (forall x, In x l -> f x = []) -> flat_map f l = [].
Proof.
  induction l as [|x r IH]; intros H; [reflexivity|].
  simpl. rewrite (H x) by now left.
  apply IH. intros; apply H; now right.
Qed.

Section MergeMore.

Variable E : env.
Variables directory output_filename : string.

Local Abbreviation run_merge :=
  (merge_pdfs_by_creation_time E directory output_filename).

(** X6. When the output file cannot be opened, the merge stage has already
    called [merger.append] on every input; the exception of [open] leaves the
    stage, the attempt to open is the last thing that happens (no completion
    line) and the directory is unchanged. *)
Theorem merge_open_failure_leaves_directory (s : fs) (e : exn) :
  filter is_pdf_name (listing s) <> [] ->
  open_error E = Some e ->
  let out := run_merge s in
  result_of out = Raise e /\
  state_of out = s /\
  appends_of (trace_of out) =
    map (fun pdf => str (joinpath directory (ent_name pdf))) (pdf_inputs s) /\
  exists before,
    trace_of out = before ++ [Open_wb (joinpath directory output_filename)].
Proof.
  intros Hf Hopen out. subst out.
  assert (Hne : pdf_inputs s <> []) by now rewrite pdf_inputs_nil.
  split; [|split; [|split]].
  - now rewrite (merge_open_fails _ _ _ _ e Hne Hopen).
  - now rewrite (merge_open_fails _ _ _ _ e Hne Hopen).
  - apply merge_appends.
  - rewrite (merge_open_fails _ _ _ _ e Hne Hopen).
    unfold trace_of; simpl fst.
    eexists (_ :: _). reflexivity.
Qed.

(** X7. When the merger can read none of the matching files, the stage still
    announces their number, logs one error per file, writes a merged file
    with no pages and returns normally. *)
Theorem merge_of_unreadable_files_writes_empty_output (s : fs) :
  filter is_pdf_name (listing s) <> [] ->
  open_error E = None ->
  (forall pdf, In pdf (listing s) -> is_pdf_name pdf = true ->
     exists why, ent_content pdf = Unreadable why) ->
  let out := run_merge s in
  result_of out = Ok tt /\
  In (merging_line output_filename
        (List.length (filter is_pdf_name (listing s)))) (trace_of out) /\
  (forall pdf why, In pdf (listing s) -> is_pdf_name pdf = true ->
     ent_content pdf = Unreadable why ->
     In (Stdout ("   [ERROR] Could not merge " +++ ent_name pdf +++ ": " +++ why))
        (trace_of out)) /\
  lookup output_filename (listing (state_of out)) =
    Some (mkEntry output_filename (merged_ctime E) (Pdf [])).
Proof.
  intros Hf Hopen Hbad out. subst out.
  assert (Hne : pdf_inputs s <> []) by now rewrite pdf_inputs_nil.
  assert (Hlen : List.length (pdf_inputs s) =
                 List.length (filter is_pdf_name (listing s))).
  { apply Permutation_length, Permutation_sym, sorted_by_ctime_perm. }
  assert (Hunread : forall pdf, In pdf (pdf_inputs s) ->
                      exists why, ent_content pdf = Unreadable why).
  { intros pdf Hin. apply sorted_by_ctime_In, filter_In in Hin as [Hin Hp].
    now apply Hbad. }
  assert (Hnil : flat_map pages_of (pdf_inputs s) = []).
  { apply flat_map_all_nil. intros pdf Hin.
    destruct (Hunread pdf Hin) as (why & Hc). unfold pages_of. now rewrite Hc. }
  assert (Hself : output_is_an_input output_filename s = false).
  { unfold output_is_an_input.
    destruct (existsb _ _) eqn:Hex; [|reflexivity].
    apply existsb_exists in Hex as (pdf & Hin & Hrb).
    destruct (Hunread pdf Hin) as (why & Hc).
    unfold reads_back in Hrb. rewrite Hc, andb_false_r in Hrb. discriminate. }
  split; [|split; [|split]].
  - now rewrite (merge_written _ _ _ _ Hne Hopen Hself).
  - rewrite (merge_written _ _ _ _ Hne Hopen Hself). unfold trace_of; simpl fst.
    left. now rewrite Hlen.
  - intros pdf why Hin Hp Hc.
    rewrite (merge_written _ _ _ _ Hne Hopen Hself). unfold trace_of; simpl fst.
    right. apply in_or_app; left. apply in_flat_map. exists pdf. split.
    + apply sorted_by_ctime_In, filter_In. auto.
    + unfold append_events. rewrite Hc. right. right. now left.
  - rewrite (merge_output_entry E directory output_filename s Hne Hopen Hself).
    unfold merged_entry. now rewrite Hnil.
Qed.

End MergeMore.

(** X8. Merging twice into the same directory under a name ending in [.pdf],
    the first merge having written at least one page: the second merge finds
    the first merged file among its inputs and appends it, opening the output
    empties that file, [merger.write] raises, and a file of zero bytes is
    left under the output name. *)
Theorem second_merge_fails_on_the_first_output
  (E1 E2 : env) (directory output_filename : string) (s : fs)
  (pdf : entry) (p : page) (ps : list page) :
  In pdf (listing s) -> is_pdf_name pdf = true -> ent_content pdf = Pdf (p :: ps) ->
  endswith ".pdf" output_filename = true ->
  open_error E1 = None -> open_error E2 = None ->
  output_not_an_input output_filename s ->
  let out1 := merge_pdfs_by_creation_time E1 directory output_filename s in
  let out2 := merge_pdfs_by_creation_time E2 directory output_filename
                (state_of out1) in
  result_of out1 = Ok tt /\
  In (Append (str (mkPath directory output_filename))) (trace_of out2) /\
  (exists e, result_of out2 = Raise e) /\
  lookup output_filename (listing (state_of out2)) =
    Some (mkEntry output_filename (merged_ctime E2) empty_file).
Proof.
  intros Hin Hpdf Hc Hout Ho1 Ho2 Hnot out1 out2.
  assert (Hne : pdf_inputs s <> []).
  { intros H0. assert (H : In pdf (pdf_inputs s))
      by (apply sorted_by_ctime_In, filter_In; auto).
    rewrite H0 in H. exact H. }
  assert (Hself := output_not_an_input_false output_filename s Hnot).
  assert (H1 : out1 = _) by exact (merge_written E1 directory output_filename
                                     s Hne Ho1 Hself).
  set (s1 := state_of out1).
  assert (Hs1 : s1 = Some (put (merged_entry E1 output_filename s) (listing s)))
    by (unfold s1; now rewrite H1).
  assert (Hin1 : In (merged_entry E1 output_filename s) (pdf_inputs s1)).
  { apply sorted_by_ctime_In, filter_In. split; [|exact Hout].
    rewrite Hs1. simpl listing. apply In_put_new. }
  assert (Hne1 : pdf_inputs s1 <> []) by (intros H0; rewrite H0 in Hin1; exact Hin1).
  assert (Hself1 : output_is_an_input output_filename s1 = true).
  { eapply output_is_an_input_true; [exact Hin1|reflexivity|reflexivity]. }
  assert (H2 : out2 = _) by exact (merge_write_fails E2 directory output_filename
                                     s1 Hne1 Ho2 Hself1).
  split; [now rewrite H1|]. split; [|split].
  - apply In_appends_of. unfold out2. fold s1. rewrite merge_appends.
    apply (in_map (fun x => str (joinpath directory (ent_name x))) _ _ Hin1).
  - exists PdfStreamError. now rewrite H2.
  - rewrite H2. unfold state_of; simpl snd; simpl listing.
    apply (lookup_put_same (truncated_entry E2 output_filename)).
Qed.

(** A directory whose only PDF entries cannot be read. *)
Definition corrupt_dir : fs :=
  Some [ mkEntry "a.pdf" 3 (Unreadable "EOF marker not found");
         mkEntry "readme.md" 1 (Pdf ["ignored"]);
         mkEntry "b.pdf" 2 (Unreadable "Is a directory") ].

Lemma merge_open_failure_leaves_directory_witness :
  let out := merge_pdfs_by_creation_time env_open_denied "downloaded_pdfs"
               "combined_report.pdf" rerun_dir in
  result_of out = Raise (Exception "[Errno 13] Permission denied") /\
  state_of out = rerun_dir.
Proof.
  intros out.
  destruct (merge_open_failure_leaves_directory env_open_denied
              "downloaded_pdfs" "combined_report.pdf" rerun_dir
              (Exception "[Errno 13] Permission denied"))
    as (Hr & Hs & _); [discriminate|reflexivity|].
  split; [exact Hr|exact Hs].
Defined.

Lemma merge_of_unreadable_files_writes_empty_output_witness :
  let out := merge_pdfs_by_creation_time env_ok "downloaded_pdfs"
               "combined_report.pdf" corrupt_dir in
  result_of out = Ok tt /\
  In (Stdout (nl +++ "Merging 2 files into combined_report.pdf...")) (trace_of out) /\
  lookup "combined_report.pdf" (listing (state_of out)) =
    Some (mkEntry "combined_report.pdf" 100 (Pdf [])).
Proof.
  intros out.
  destruct (merge_of_unreadable_files_writes_empty_output env_ok
              "downloaded_pdfs" "combined_report.pdf" corrupt_dir)
    as (Hr & Hline & _ & Hout); [discriminate|reflexivity| |].
  - intros pdf [<-|[<-|[<-|[]]]] Hp; try discriminate Hp; eexists; reflexivity.
  - split; [exact Hr|]. split; [exact Hline|exact Hout].
Defined.

Lemma second_merge_fails_on_the_first_output_witness :
  let out1 := merge_pdfs_by_creation_time env_ok "downloaded_pdfs"
                "combined_report.pdf" stale_dir in
  let out2 := merge_pdfs_by_creation_time env_ok "downloaded_pdfs"
                "combined_report.pdf" (state_of out1) in
  result_of out1 = Ok tt /\
  In (Append "downloaded_pdfs/combined_report.pdf") (trace_of out2) /\
  lookup "combined_report.pdf" (listing (state_of out2)) =
    Some (mkEntry "combined_report.pdf" 100 empty_file).
Proof.
  intros out1 out2.
  destruct (second_merge_fails_on_the_first_output env_ok env_ok
              "downloaded_pdfs" "combined_report.pdf" stale_dir
              (mkEntry "page_2.pdf" 1 (Pdf ["stale"])) "stale" [])
    as (Hr & Happ & _ & Hout);
    [left; reflexivity|reflexivity|reflexivity|reflexivity|reflexivity|reflexivity| |].
  - intros pdf [<-|[]] Hn. discriminate Hn.
  - split; [exact Hr|]. split; [exact Happ|exact Hout].
Defined.

(** ** main and its download loop *)

Lemma put_fresh e l :
  (forall x, In x l -> ent_name x <> ent_name e) -> put e l = l ++ [e].
Proof.
  induction l as [|x r IH]; intros H; [reflexivity|].
  simpl. destruct (ent_name x =? ent_name e)%string eqn:Hx.
  - apply String.eqb_eq in Hx. exfalso. apply (H x); [now left|exact Hx].
  - f_equal. apply IH. intros y Hy. apply H. now right.
Qed.

Lemma sorted_by_ctime_id l : StronglySorted ctime_le l -> sorted_by_ctime l = l.
Proof.
  induction 1 as [|a r Hs IH Hall]; [reflexivity|].
  simpl. rewrite IH. destruct r as [|b r']; [reflexivity|].
  simpl. inversion Hall as [|? ? Hab _]; subst.
  unfold ctime_le in Hab. apply Z.leb_le in Hab. now rewrite Hab.
Qed.

Lemma last_app_nonempty {A} (a b : list A) d : b <> [] -> last (a ++ b) d = last b d.
Proof.
  intros Hb. induction a as [|x a IH]; [reflexivity|].
  simpl app. destruct (a ++ b) as [|y m] eqn:Hab.
  - apply app_eq_nil in Hab as [_ ->]. congruence.
  - exact IH.
Qed.

(** The entries the fetches of [ts] leave when they succeed, in order. *)
Definition fetched_entries (E : env) (directory : string)
  (ts : list (nat * string)) : list entry :=
  flat_map (fun t =>
              match outcome E directory t with
              | Rendered pages stamp =>
                  [mkEntry (Path_name (page_path directory (fst t))) stamp
                     (Pdf pages)]
              | _ => []
              end) ts.

Section DriverMore.

Variable E : env.
Variable URLS_TO_DOWNLOAD : list string.
Variable DOWNLOAD_DIRECTORY : string.
Variable MERGED_FILENAME : string.

Local Abbreviation run_main :=
  (main E URLS_TO_DOWNLOAD DOWNLOAD_DIRECTORY MERGED_FILENAME).
Local Abbreviation run_merge :=
  (merge_pdfs_by_creation_time E DOWNLOAD_DIRECTORY MERGED_FILENAME).
Local Abbreviation the_successes :=
  (successes E URLS_TO_DOWNLOAD DOWNLOAD_DIRECTORY).
Local Abbreviation the_targets := (targets URLS_TO_DOWNLOAD).
Local Abbreviation dir_after_downloads :=
  (after_downloads E URLS_TO_DOWNLOAD DOWNLOAD_DIRECTORY).
Local Abbreviation path_of := (page_path DOWNLOAD_DIRECTORY).
Local Abbreviation outcome_of := (outcome E DOWNLOAD_DIRECTORY).
Local Abbreviation succeeds := (fetch_succeeds E DOWNLOAD_DIRECTORY).
Local Abbreviation step := (attempt_state E DOWNLOAD_DIRECTORY).

Lemma lookup_other_name nm ts : forall l,
  (forall t, In t ts -> nm <> Path_name (path_of (fst t))) ->
  lookup nm (fold_left step ts l) = lookup nm l.
Proof.
  induction ts as [|t r IH]; intros l H; [reflexivity|].
  simpl. rewrite IH by (intros; apply H; now right).
  unfold attempt_state.
  destruct (outcome_of t); try reflexivity;
    apply lookup_put_other; simpl ent_name; apply H; now left.
Qed.

Lemma merge_frame s nm :
  nm <> MERGED_FILENAME ->
  lookup nm (listing (state_of (run_merge s))) = lookup nm (listing s).
Proof.
  intros Hnm.
  destruct (merge_cases E DOWNLOAD_DIRECTORY MERGED_FILENAME s)
    as [(_ & ->) | [(_ & _ & _ & ->) | (e & s' & _ & [-> | ->] & ->)]];
    unfold state_of; simpl snd; try reflexivity;
    simpl listing; now apply lookup_put_other.
Qed.

Lemma main_state_frame s nm :
  mkdir_error E = None -> nm <> MERGED_FILENAME ->
  lookup nm (listing (state_of (run_main s))) =
  lookup nm (listing (dir_after_downloads s)).
Proof.
  intros Hmk Hnm.
  destruct (main_shape E URLS_TO_DOWNLOAD DOWNLOAD_DIRECTORY MERGED_FILENAME
              s Hmk) as (_ & _ & _ & ->).
  destruct the_successes as [|t [|t' r]]; try reflexivity.
  now apply merge_frame.
Qed.

Lemma target_index_in_range t :
  In t the_targets -> fst t < List.length URLS_TO_DOWNLOAD.
Proof.
  intros H. apply In_targets_inv in H.
  apply nth_error_Some. congruence.
Qed.

(** X9. The download loop never raises, whatever fails: it attempts every
    target in list order and returns the destinations of exactly the targets
    whose fetch succeeded, in list order. *)
Theorem download_loop_returns_the_successes (l : list entry) :
  let out := download_loop E DOWNLOAD_DIRECTORY 0 URLS_TO_DOWNLOAD [] (Some l) in
  result_of out =
    Ok (map (fun t => path_of (fst t)) (filter succeeds the_targets)) /\
  downloads_of (trace_of out) =
    map (fun t => (snd t, path_of (fst t))) the_targets /\
  (forall p, In p (map (fun t => path_of (fst t)) (filter succeeds the_targets)) <->
     exists k url pages stamp,
       nth_error URLS_TO_DOWNLOAD k = Some url /\ p = path_of k /\
       browser E url (path_of k) = Rendered pages stamp).
Proof.
  intros out. subst out. rewrite download_loop_spec.
  unfold result_of, trace_of; simpl fst; simpl snd.
  split; [reflexivity|]. split; [apply downloads_of_attempts|].
  intros p. rewrite in_map_iff. split.
  - intros ([k url] & <- & Hin). apply filter_In in Hin as [Hin Hok].
    apply In_targets_inv in Hin. simpl in Hin.
    destruct (fetch_succeeds_Rendered _ _ _ Hok) as (pages & stamp & Ho).
    exists k, url, pages, stamp. auto.
  - intros (k & url & pages & stamp & Hk & -> & Ho).
    exists (k, url). split; [reflexivity|].
    apply filter_In. split; [now apply In_targets|].
    unfold fetch_succeeds, outcome. simpl fst; simpl snd. now rewrite Ho.
Qed.

(** X10. When creating the download directory fails, main stops there: only
    the banner has been printed, no target is attempted, the directory is
    untouched and the exception of mkdir leaves main. *)
Theorem mkdir_failure_stops_the_run (s : fs) (e : exn) :
  mkdir_error E = Some e ->
  result_of (run_main s) = Raise e /\
  state_of (run_main s) = s /\
  trace_of (run_main s) = [Stdout "--- WEB-TO-PDF DOWNLOADER AND MERGER ---"] /\
  downloads_of (trace_of (run_main s)) = [].
Proof.
  intros H. rewrite (main_mkdir_fails _ _ _ _ s e H). auto.
Qed.

(** X11. A whole run creates or changes no entry of the directory other than
    the page files [page_1.pdf] .. [page_n.pdf] of its [n] targets and the
    merged file; this holds whatever fails. *)
Theorem main_touches_only_page_files_and_merged_file (s : fs) (nm : string) :
  nm <> MERGED_FILENAME ->
  (forall i, i < List.length URLS_TO_DOWNLOAD -> nm <> Path_name (path_of i)) ->
  lookup nm (listing (state_of (run_main s))) = lookup nm (listing s).
Proof.
  intros Hm Hp.
  destruct (mkdir_error E) as [e|] eqn:Hmk.
  - now rewrite (main_mkdir_fails _ _ _ _ s e Hmk).
  - rewrite main_state_frame by assumption.
    unfold after_downloads. simpl listing.
    apply lookup_other_name. intros t Ht.
    apply Hp. now apply target_index_in_range.
Qed.

(** X12. A page file a fetch of this run has written is still there, with
    the rendered pages, when main ends: no later fetch overwrites it and the
    merge stage leaves it alone, unless the merged file has that very name. *)
Theorem fetched_page_file_survives_the_run
  (s : fs) (j : nat) (url : string) (pages : list page) (stamp : Z) :
  mkdir_error E = None ->
  nth_error URLS_TO_DOWNLOAD j = Some url ->
  browser E url (path_of j) = Rendered pages stamp ->
  Path_name (path_of j) <> MERGED_FILENAME ->
  lookup (Path_name (path_of j)) (listing (state_of (run_main s))) =
    Some (mkEntry (Path_name (path_of j)) stamp (Pdf pages)).
Proof.
  intros Hmk Hj Ho Hm.
  rewrite main_state_frame by assumption.
  rewrite (lookup_after_downloads E URLS_TO_DOWNLOAD DOWNLOAD_DIRECTORY s j url Hj).
  unfold outcome. simpl fst; simpl snd. now rewrite Ho.
Qed.

Lemma page_strings_distinct urls : forall i,
  NoDup (map (fun t => str (path_of (fst t))) (enumerate_from i urls)).
Proof.
  induction urls as [|url rest IH]; intros i; [constructor|].
  simpl. constructor; [|apply IH].
  intros Hin. apply in_map_iff in Hin as (t & Hstr & Ht).
  apply In_enumerate_from_inv in Ht as (k & Hk & _).
  apply str_joinpath_inj, (page_name_inj DOWNLOAD_DIRECTORY) in Hstr. lia.
Qed.

(** X13. The download loop gives every target a destination of its own: the
    paths passed to download_page_as_pdf during one run are pairwise
    different files, so no fetch overwrites the page of another. *)
Theorem page_paths_are_distinct (l : list entry) :
  NoDup (map (fun call => str (snd call))
           (downloads_of (trace_of (download_loop E DOWNLOAD_DIRECTORY 0
                                      URLS_TO_DOWNLOAD [] (Some l))))).
Proof.
  rewrite download_loop_spec. unfold trace_of; simpl fst.
  rewrite downloads_of_attempts, map_map. simpl snd.
  apply page_strings_distinct.
Qed.

End DriverMore.

Lemma filter_all_true {A} (f : A -> bool) l :
  (forall x, In x l -> f x = true) -> filter f l = l.
Proof.
  induction l as [|x r IH]; intros H; [reflexivity|].
  simpl. rewrite (H x) by now left.
  f_equal. apply IH. intros; apply H; now right.
Qed.

Lemma strictly_sorted_is_sorted l :
  StronglySorted ctime_lt l -> StronglySorted ctime_le l.
Proof.
  induction 1 as [|a r Hs IH Hall]; constructor; [exact IH|].
  eapply Forall_impl; [|exact Hall].
  unfold ctime_lt, ctime_le. intros; lia.
Qed.

Section FreshRun.

Variable E : env.
Variable URLS_TO_DOWNLOAD : list string.
Variable DOWNLOAD_DIRECTORY : string.
Variable MERGED_FILENAME : string.

Local Abbreviation run_main :=
  (main E URLS_TO_DOWNLOAD DOWNLOAD_DIRECTORY MERGED_FILENAME).
Local Abbreviation run_merge :=
  (merge_pdfs_by_creation_time E DOWNLOAD_DIRECTORY MERGED_FILENAME).
Local Abbreviation the_successes :=
  (successes E URLS_TO_DOWNLOAD DOWNLOAD_DIRECTORY).
Local Abbreviation the_targets := (targets URLS_TO_DOWNLOAD).
Local Abbreviation dir_after_downloads :=
  (after_downloads E URLS_TO_DOWNLOAD DOWNLOAD_DIRECTORY).
Local Abbreviation path_of := (page_path DOWNLOAD_DIRECTORY).
Local Abbreviation outcome_of := (outcome E DOWNLOAD_DIRECTORY).
Local Abbreviation succeeds := (fetch_succeeds E DOWNLOAD_DIRECTORY).
Local Abbreviation step := (attempt_state E DOWNLOAD_DIRECTORY).
Local Abbreviation fetched := (fetched_entries E DOWNLOAD_DIRECTORY).

Lemma fetched_entries_are_pdf ts : filter is_pdf_name (fetched ts) = fetched ts.
Proof.
  apply filter_all_true. intros e He.
  unfold fetched_entries in He. apply in_flat_map in He as (t & _ & He).
  destruct (outcome_of t); try contradiction.
  destruct He as [<-|[]]. apply is_pdf_page_name.
Qed.

Lemma fetched_entries_paths ts :
  (forall t, In t ts -> succeeds t = true) ->
  map (fun e => str (joinpath DOWNLOAD_DIRECTORY (ent_name e))) (fetched ts) =
  map (fun t => str (path_of (fst t))) ts.
Proof.
  induction ts as [|t r IH]; intros H; [reflexivity|].
  destruct (fetch_succeeds_Rendered _ _ _ (H t (or_introl eq_refl)))
    as (pages & stamp & Ho).
  unfold fetched_entries. simpl flat_map. rewrite Ho. simpl.
  f_equal. apply IH. intros; apply H; now right.
Qed.

Lemma fold_on_fresh_names urls : forall i l,
  (forall t, In t (enumerate_from i urls) -> succeeds t = true) ->
  (forall x j, In x l -> i <= j -> ent_name x <> Path_name (path_of j)) ->
  fold_left step (enumerate_from i urls) l = l ++ fetched (enumerate_from i urls).
Proof.
  induction urls as [|url rest IH]; intros i l Hok Hfresh.
  - simpl. now rewrite app_nil_r.
  - destruct (fetch_succeeds_Rendered _ _ _ (Hok (i, url) (or_introl eq_refl)))
      as (pages & stamp & Ho).
    simpl enumerate_from. simpl fold_left.
    unfold fetched_entries. simpl flat_map. fold (fetched (enumerate_from (S i) rest)).
    unfold attempt_state at 2. rewrite Ho. simpl fst.
    rewrite put_fresh by (intros x Hx; simpl ent_name; now apply Hfresh).
    rewrite IH.
    + now rewrite <- app_assoc.
    + intros t Ht. apply Hok. now right.
    + intros x j Hx Hj. apply in_app_or in Hx as [Hx|[<-|[]]].
      * apply Hfresh; [exact Hx|lia].
      * simpl ent_name. intros H. apply page_name_inj in H. lia.
Qed.

Lemma fetched_entry_name ts pdf :
  In pdf (fetched ts) ->
  exists t, In t ts /\ ent_name pdf = Path_name (path_of (fst t)).
Proof.
  intros He. unfold fetched_entries in He.
  apply in_flat_map in He as (t & Ht & He).
  destruct (outcome_of t); try contradiction.
  destruct He as [<-|[]]. now exists t.
Qed.

(** X14. A run into a directory without PDF files in which every fetch
    succeeds and the page files get increasing ctimes in list order, the
    merged file not having the name of a page file: the merge appends
    [page_1.pdf], [page_2.pdf], ... in the order of the URL list, and the
    merged file holds the pages of the targets in that order. *)
Theorem fresh_run_merges_in_list_order (s : fs) :
  mkdir_error E = None ->
  open_error E = None ->
  2 <= List.length URLS_TO_DOWNLOAD ->
  (forall k url, nth_error URLS_TO_DOWNLOAD k = Some url ->
     succeeds (k, url) = true) ->
  filter is_pdf_name (listing s) = [] ->
  StronglySorted ctime_lt (fetched the_targets) ->
  (forall i, i < List.length URLS_TO_DOWNLOAD ->
     Path_name (path_of i) <> MERGED_FILENAME) ->
  result_of (run_main s) = Ok tt /\
  appends_of (trace_of (run_main s)) =
    map (fun t => str (path_of (fst t))) the_targets /\
  lookup MERGED_FILENAME (listing (state_of (run_main s))) =
    Some (mkEntry MERGED_FILENAME (merged_ctime E)
            (Pdf (flat_map pages_of (fetched the_targets)))).
Proof.
  intros Hmk Hopen Hlen Hall Hnopdf Hsorted Hpages.
  assert (Hok : forall t, In t the_targets -> succeeds t = true).
  { intros [k url] Ht. apply Hall. now apply In_targets_inv in Ht. }
  assert (Hsucc : the_successes = the_targets)
    by (apply filter_all_true; exact Hok).
  assert (Hlen' : 2 <= List.length the_successes)
    by (rewrite Hsucc, length_targets; exact Hlen).
  assert (Hdir : dir_after_downloads s = Some (listing s ++ fetched the_targets)).
  { unfold after_downloads. f_equal. apply fold_on_fresh_names; [exact Hok|].
    intros x j Hx _ Hname.
    assert (Hin : In x (filter is_pdf_name (listing s))).
    { apply filter_In. split; [exact Hx|].
      unfold is_pdf_name. rewrite Hname. apply is_pdf_page_name. }
    rewrite Hnopdf in Hin. exact Hin. }
  assert (Hinputs : pdf_inputs (dir_after_downloads s) = fetched the_targets).
  { rewrite Hdir. unfold pdf_inputs. simpl listing.
    rewrite filter_app, Hnopdf, fetched_entries_are_pdf. simpl.
    now apply sorted_by_ctime_id, strictly_sorted_is_sorted. }
  assert (Hne : pdf_inputs (dir_after_downloads s) <> []).
  { apply pdf_inputs_after_downloads. intros H0. rewrite H0 in Hlen'.
    simpl in Hlen'. lia. }
  assert (Hself : output_is_an_input MERGED_FILENAME (dir_after_downloads s)
                  = false).
  { unfold output_is_an_input. rewrite Hinputs.
    destruct (existsb _ _) eqn:Hex; [|reflexivity].
    apply existsb_exists in Hex as (pdf & Hin & Hrb).
    apply fetched_entry_name in Hin as (t & Ht & Hname).
    unfold reads_back in Hrb. apply andb_true_iff in Hrb as [Hn _].
    apply String.eqb_eq in Hn. exfalso. apply (Hpages (fst t)).
    - apply In_targets_inv in Ht. apply nth_error_Some. congruence.
    - congruence. }
  split; [|split].
  - rewrite (main_merging E URLS_TO_DOWNLOAD DOWNLOAD_DIRECTORY MERGED_FILENAME s Hmk Hlen').
    now rewrite (merge_written E DOWNLOAD_DIRECTORY MERGED_FILENAME _ Hne Hopen Hself).
  - rewrite (main_appends E URLS_TO_DOWNLOAD DOWNLOAD_DIRECTORY MERGED_FILENAME s Hmk).
    destruct the_successes as [|t [|t' r]]; simpl in Hlen'; try lia.
    rewrite merge_appends, Hinputs.
    now apply fetched_entries_paths.
  - destruct (main_shape E URLS_TO_DOWNLOAD DOWNLOAD_DIRECTORY MERGED_FILENAME s Hmk) as (_ & _ & _ & ->).
    destruct the_successes as [|t [|t' r]]; simpl in Hlen'; try lia.
    rewrite (merge_output_entry E DOWNLOAD_DIRECTORY MERGED_FILENAME _ Hne Hopen Hself).
    unfold merged_entry. now rewrite Hinputs.
Qed.

(** X15. A fetch that has written its page file and then fails (at
    [browser.close]) is logged as failed and its path is not among the
    successful downloads; the file is on disk all the same, so when two or
    more other fetches succeeded the merge stage appends it. *)
Theorem file_written_before_failure_is_merged
  (s : fs) (k : nat) (url : string) (pages : list page) (stamp : Z) (e : exn) :
  mkdir_error E = None ->
  nth_error URLS_TO_DOWNLOAD k = Some url ->
  browser E url (path_of k) = CloseError pages stamp e ->
  2 <= List.length the_successes ->
  In (critical_line url e) (trace_of (run_main s)) /\
  ~ In (path_of k) (map (fun t => path_of (fst t)) the_successes) /\
  In (Append (str (path_of k))) (trace_of (run_main s)).
Proof.
  intros Hmk Hk Ho Hlen.
  assert (Ho' : outcome_of (k, url) = CloseError pages stamp e) by exact Ho.
  split; [|split].
  - apply (failed_fetch_logged E URLS_TO_DOWNLOAD DOWNLOAD_DIRECTORY MERGED_FILENAME s k); [exact Hmk|exact Hk|].
    now rewrite Ho'.
  - intros Hin. apply in_map_iff in Hin as (t & Hp & Ht).
    destruct (page_in_successes_inv E URLS_TO_DOWNLOAD DOWNLOAD_DIRECTORY k t Ht Hp) as (_ & Hn & Hok).
    rewrite Hk in Hn. injection Hn as Hn. rewrite <- Hn in Hok.
    unfold fetch_succeeds in Hok. rewrite Ho' in Hok. discriminate.
  - apply In_appends_of. rewrite (main_appends E URLS_TO_DOWNLOAD DOWNLOAD_DIRECTORY MERGED_FILENAME s Hmk).
    destruct the_successes as [|t [|t' r]]; simpl in Hlen; try lia.
    rewrite merge_appends.
    apply (in_map (fun pdf => str (joinpath DOWNLOAD_DIRECTORY (ent_name pdf)))
             _ (mkEntry (Path_name (path_of k)) stamp (Pdf pages))).
    apply sorted_by_ctime_In, filter_In. split; [|apply is_pdf_page_name].
    pose proof (lookup_after_downloads E URLS_TO_DOWNLOAD DOWNLOAD_DIRECTORY
                  s k url Hk) as H.
    rewrite Ho' in H. now apply lookup_In in H.
Qed.

(** X16. main returns normally exactly when the last thing that happens is
    the line "--- PROCESS COMPLETE ---": after a failure of mkdir or of
    opening the merged file that line is not reached. *)
Theorem process_complete_is_last_iff_main_returns (s : fs) :
  result_of (run_main s) = Ok tt <->
  last (trace_of (run_main s)) (Stdout "") = complete_line.
Proof.
  destruct (mkdir_error E) as [e|] eqn:Hmk.
  - rewrite (main_mkdir_fails E URLS_TO_DOWNLOAD DOWNLOAD_DIRECTORY MERGED_FILENAME s e Hmk).
    unfold result_of, trace_of; simpl. split; discriminate.
  - destruct the_successes as [|t [|t' r]] eqn:Hs.
    + rewrite (main_nothing E URLS_TO_DOWNLOAD DOWNLOAD_DIRECTORY MERGED_FILENAME s Hmk Hs).
      unfold result_of, trace_of; cbn [fst snd].
      rewrite !app_assoc, last_last. split; reflexivity.
    + rewrite (main_single E URLS_TO_DOWNLOAD DOWNLOAD_DIRECTORY MERGED_FILENAME s t Hmk Hs).
      unfold result_of, trace_of; cbn [fst snd].
      rewrite !app_assoc, last_last. split; reflexivity.
    + assert (Hlen : 2 <= List.length the_successes) by (rewrite Hs; simpl; lia).
      assert (Hne : pdf_inputs (dir_after_downloads s) <> []).
      { apply pdf_inputs_after_downloads. rewrite Hs. discriminate. }
      rewrite (main_merging E URLS_TO_DOWNLOAD DOWNLOAD_DIRECTORY MERGED_FILENAME s Hmk Hlen).
      destruct (open_error E) as [e|] eqn:Hopen.
      * rewrite (merge_open_fails E DOWNLOAD_DIRECTORY MERGED_FILENAME _ e Hne Hopen).
        unfold result_of, trace_of; cbn [fst snd].
        rewrite 2 app_comm_cons, !app_assoc, last_last.
        split; discriminate.
      * destruct (output_is_an_input MERGED_FILENAME (dir_after_downloads s))
          eqn:Hself.
        -- rewrite (merge_write_fails E DOWNLOAD_DIRECTORY MERGED_FILENAME _
                      Hne Hopen Hself).
           unfold result_of, trace_of; cbn [fst snd].
           rewrite 2 app_comm_cons, !app_assoc, last_last.
           split; discriminate.
        -- rewrite (merge_written E DOWNLOAD_DIRECTORY MERGED_FILENAME _
                      Hne Hopen Hself).
           unfold result_of, trace_of; cbn [fst snd].
           rewrite !app_assoc, last_last. split; reflexivity.
Qed.

End FreshRun.

(** Every fetch renders; the page files get ctimes 10, 20, 30. *)
Definition env_in_order : env :=
  mkEnv None
    (fun url p =>
       Rendered [url]
         (if (Path_name p =? "page_1.pdf")%string then 10
          else if (Path_name p =? "page_2.pdf")%string then 20 else 30))
    None 100 str (fun d => d).

(** The second fetch writes its file, then closing the browser fails. *)
Definition env_close_fails : env :=
  mkEnv None
    (fun url p =>
       if (Path_name p =? "page_2.pdf")%string
       then CloseError [url] 60 (Exception "Target closed")
       else Rendered [url] 50)
    None 100 str (fun d => d).

Lemma mkdir_failure_stops_the_run_witness :
  result_of (Source.main env_mkdir_denied rerun_dir) =
    Raise (Exception "[Errno 13] Permission denied: 'downloaded_pdfs'") /\
  state_of (Source.main env_mkdir_denied rerun_dir) = rerun_dir.
Proof.
  destruct (mkdir_failure_stops_the_run env_mkdir_denied
              Source.URLS_TO_DOWNLOAD Source.DOWNLOAD_DIRECTORY
              Source.MERGED_FILENAME rerun_dir
              (Exception "[Errno 13] Permission denied: 'downloaded_pdfs'")
              eq_refl) as (Hr & Hs & _).
  split; [exact Hr|exact Hs].
Defined.

Lemma main_touches_only_page_files_and_merged_file_witness :
  lookup "broken.pdf" (listing (state_of (Source.main env_second_fails rerun_dir))) =
  Some (mkEntry "broken.pdf" 15 (Unreadable "EOF marker not found")).
Proof.
  unfold Source.main.
  rewrite (main_touches_only_page_files_and_merged_file env_second_fails
             Source.URLS_TO_DOWNLOAD Source.DOWNLOAD_DIRECTORY
             Source.MERGED_FILENAME rerun_dir "broken.pdf").
  - reflexivity.
  - discriminate.
  - intros i _ H. unfold page_path, joinpath in H. simpl in H. discriminate H.
Defined.

Lemma fetched_page_file_survives_the_run_witness :
  lookup "page_3.pdf" (listing (state_of (Source.main env_second_fails stale_dir))) =
  Some (mkEntry "page_3.pdf" 50 (Pdf ["https://example.com/"])).
Proof.
  apply (fetched_page_file_survives_the_run env_second_fails
           Source.URLS_TO_DOWNLOAD Source.DOWNLOAD_DIRECTORY
           Source.MERGED_FILENAME stale_dir 2 "https://example.com/"
           ["https://example.com/"] 50);
    [reflexivity|reflexivity|reflexivity|discriminate].
Defined.

Lemma fresh_run_merges_in_list_order_witness :
  appends_of (trace_of (Source.main env_in_order None)) =
    [ "downloaded_pdfs/page_1.pdf"; "downloaded_pdfs/page_2.pdf";
      "downloaded_pdfs/page_3.pdf" ] /\
  lookup "combined_report.pdf" (listing (state_of (Source.main env_in_order None))) =
    Some (mkEntry "combined_report.pdf" 100
            (Pdf [ "https://www.google.com/";
                   "https://en.wikipedia.org/wiki/Python_(programming_language)";
                   "https://example.com/" ])).
Proof.
  destruct (fresh_run_merges_in_list_order env_in_order
              Source.URLS_TO_DOWNLOAD Source.DOWNLOAD_DIRECTORY
              Source.MERGED_FILENAME None) as (_ & Happ & Hout).
  - reflexivity.
  - reflexivity.
  - vm_compute. lia.
  - intros k url _. reflexivity.
  - reflexivity.
  - vm_compute. repeat constructor.
  - intros i _ H. unfold page_path, joinpath in H. simpl in H. discriminate H.
  - split; [exact Happ|exact Hout].
Defined.

Lemma file_written_before_failure_is_merged_witness :
  In (Append "downloaded_pdfs/page_2.pdf")
     (trace_of (Source.main env_close_fails None)) /\
  result_of (download_loop env_close_fails Source.DOWNLOAD_DIRECTORY 0
               Source.URLS_TO_DOWNLOAD [] (Some [])) =
    Ok [ joinpath "downloaded_pdfs" "page_1.pdf";
         joinpath "downloaded_pdfs" "page_3.pdf" ].
Proof.
  destruct (file_written_before_failure_is_merged env_close_fails
              Source.URLS_TO_DOWNLOAD Source.DOWNLOAD_DIRECTORY
              Source.MERGED_FILENAME None 1
              "https://en.wikipedia.org/wiki/Python_(programming_language)"
              ["https://en.wikipedia.org/wiki/Python_(programming_language)"]
              60 (Exception "Target closed") eq_refl eq_refl eq_refl)
    as (_ & _ & Happ); [vm_compute; lia|].
  split; [exact Happ|reflexivity].
Defined.

(** X17. However many fetches fail, each failure is reported on standard
    output with the URL and the text of the exception, and the loop goes on:
    the download of every URL of the list is started. *)
Theorem every_failed_fetch_is_logged
  (E : env) (URLS_TO_DOWNLOAD : list string)
  (DOWNLOAD_DIRECTORY MERGED_FILENAME : string)
  (s : fs) (k : nat) (url : string) (e : exn) :
  mkdir_error E = None ->
  nth_error URLS_TO_DOWNLOAD k = Some url ->
  failure_of (browser E url (page_path DOWNLOAD_DIRECTORY k)) = Some e ->
  let tr := trace_of (main E URLS_TO_DOWNLOAD DOWNLOAD_DIRECTORY
                        MERGED_FILENAME s) in
  In (Stdout ("[CRITICAL ERROR] Failed to download " +++ url +++ ": "
              +++ exn_msg e)) tr /\
  (forall k' url', nth_error URLS_TO_DOWNLOAD k' = Some url' ->
     In (Stdout ("-> Starting download for: " +++ url')) tr).
Proof.
  intros Hmk Hk Hf tr. subst tr. split.
  - exact (failed_fetch_logged E URLS_TO_DOWNLOAD DOWNLOAD_DIRECTORY
             MERGED_FILENAME s k url e Hmk Hk Hf).
  - intros k' url' Hk'.
    apply In_attempt_events; [exact Hmk|].
    apply in_flat_map. exists (k', url'). split; [now apply In_targets|].
    unfold attempt_events. simpl snd. right. now left.
Qed.

Lemma every_failed_fetch_is_logged_witness :
  In (Stdout ("[CRITICAL ERROR] Failed to download https://example.com/"
              +++ ": net::ERR_NAME_NOT_RESOLVED"))
     (trace_of (Source.main env_only_first None)) /\
  In (Stdout "-> Starting download for: https://example.com/")
     (trace_of (Source.main env_only_first None)).
Proof.
  destruct (every_failed_fetch_is_logged env_only_first
              Source.URLS_TO_DOWNLOAD Source.DOWNLOAD_DIRECTORY
              Source.MERGED_FILENAME None 2 "https://example.com/"
              (Exception "net::ERR_NAME_NOT_RESOLVED") eq_refl eq_refl eq_refl)
    as (Hlog & Hstart).
  split; [exact Hlog|exact (Hstart 2 "https://example.com/" eq_refl)].
Defined.
